(** * felice-search-engine: the query / result pipeline of [Search.tsx]

    A shallow embedding of the logic of the [SearchComponent] React
    component (src/felice-search-engine/src/Search.tsx): the keyword and
    domain filters, the normalising [filterResults], the dispatch cycle
    [handleSearch] and the two UI actions [handleTabChange] and
    [handlePageChange].

    Modelling conventions.
    - JavaScript strings are [string]s of ASCII characters;
      [String.prototype.toLowerCase] is modelled on the letters A-Z.
    - A field of a raw API item is a string or absent ([undefined]).
    - JavaScript numbers that count pages and results are integers ([Z]),
      in the range where IEEE doubles are exact.
    - An exception is a value of the error monad [result].
    - The React setters and the outbound request are [Effect]s; a handler
      is the list of effects it performs, in program order, and the
      session state after a handler is the fold of those effects. *)

From Stdlib Require Import Strings.String Strings.Ascii Lists.List ZArith Bool Lia.
Import ListNotations.
Open Scope string_scope.
Open Scope Z_scope.

(** ** JavaScript strings *)

Definition lower_ascii (c : ascii) : ascii :=
  let n := nat_of_ascii c in
  if (Nat.leb 65 n && Nat.leb n 90)%bool then ascii_of_nat (n + 32) else c.

(** [s.toLowerCase()] *)
Fixpoint toLowerCase (s : string) : string :=
  match s with
  | EmptyString => EmptyString
  | String c r => String (lower_ascii c) (toLowerCase r)
  end.

(** [s.startsWith(k)] *)
Fixpoint startsWith (s k : string) {struct k} : bool :=
  match k, s with
  | EmptyString, _ => true
  | String a k', String b s' => Ascii.eqb a b && startsWith s' k'
  | String _ _, EmptyString => false
  end.

(** [s.includes(k)]: [k] occurs in [s] at some position. *)
Fixpoint includes (s k : string) : bool :=
  startsWith s k ||
  match s with
  | EmptyString => false
  | String _ s' => includes s' k
  end.

(** [arr.includes(x)] on an array of strings. *)
Definition Array_includes (arr : list string) (x : string) : bool :=
  existsb (String.eqb x) arr.

(** A property of a raw item: a string, or absent. *)
Inductive JsStr : Type :=
| undefined
| str (s : string).

Definition truthy (v : JsStr) : bool :=
  match v with
  | str (String _ _) => true
  | _ => false
  end.

(** [a || b] *)
Definition or_ (a b : JsStr) : JsStr := if truthy a then a else b.

(** [a || 'lit'], whose value is always a string. *)
Definition or_lit (a : JsStr) (lit : string) : string :=
  match a with
  | str (String c r) => String c r
  | _ => lit
  end.

(** The conversion applied to an argument where a string is expected. *)
Definition ToString (v : JsStr) : string :=
  match v with
  | undefined => "undefined"
  | str s => s
  end.

(** ** Exceptions *)

(** The exceptions raised inside the component: the [TypeError] of an
    invalid URL or of a property read on [undefined].  A rejected request
    is an [Outcome] of the [await], below. *)
Inductive exn : Type :=
| TypeError (msg : string).

Inductive result (A : Type) : Type :=
| Ok (a : A)
| Throw (e : exn).
Arguments Ok {A} a.
Arguments Throw {A} e.

Definition bind {A B} (m : result A) (k : A -> result B) : result B :=
  match m with
  | Ok a => k a
  | Throw e => Throw e
  end.

Notation "x <- m ;; k" := (bind m (fun x => k))
  (at level 61, m at next level, right associativity).

(** [arr.filter(cb)] with a callback that may throw: the callback runs on
    the elements in order and the first exception aborts the call. *)
Fixpoint Array_filter {A} (cb : A -> result bool) (arr : list A) : result (list A) :=
  match arr with
  | [] => Ok []
  | x :: rest =>
      b <- cb x ;;
      kept <- Array_filter cb rest ;;
      Ok (if b then x :: kept else kept)
  end.

(** [arr.map(cb)] with a callback that may throw. *)
Fixpoint Array_map {A B} (cb : A -> result B) (arr : list A) : result (list B) :=
  match arr with
  | [] => Ok []
  | x :: rest =>
      y <- cb x ;;
      ys <- Array_map cb rest ;;
      Ok (y :: ys)
  end.

(** ** The platform

    [new URL(link)] is the browser's URL parser and [apiKey] comes from the
    build environment; neither is code of the component.  The component
    only reads [hostname] of a parsed URL.  [URL_parse link = None] stands
    for the [TypeError] the constructor throws on an invalid URL; the empty
    string is one. *)

Record URL : Type := { hostname : string }.

Class Platform : Type := {
  URL_parse : string -> option URL;
  URL_parse_empty : URL_parse "" = None;
  VITE_BING_API_KEY : string
}.

Definition URL_new `{Platform} (link : string) : result URL :=
  match URL_parse link with
  | Some u => Ok u
  | None => Throw (TypeError "Invalid URL")
  end.

(** ** Data model *)

(** A raw item of the API response ([any] in the source): the properties
    the component reads. *)
Module RawItem.
Record t : Type := {
  name : JsStr;
  url : JsStr;
  snippet : JsStr;
  displayUrl : JsStr;
  contentUrl : JsStr;
  thumbnailUrl : JsStr
}.
End RawItem.

(** [interface SearchResult], with the values the object literal of
    [filterResults] stores: the raw properties are copied as they are. *)
Module SearchResult.
Record t : Type := {
  name : JsStr;
  url : JsStr;
  snippet : JsStr;
  displayUrl : JsStr;
  faviconUrl : string;
  contentUrl : JsStr;
  thumbnailUrl : JsStr
}.
End SearchResult.

(** ** Filters *)

Definition resultsPerPage : Z := 20.

Definition inappropriateKeywords : list string :=
  ["keyword1"; "keyword2"; "keyword3"].

Definition excludedDomains : list string :=
  ["example.com"; "anotherexample.com"].

(** The [for ... of] loop of [isContentAppropriate], over any keyword list. *)
Fixpoint isContentAppropriate_loop (keywords : list string) (content : string) : bool :=
  match keywords with
  | [] => true
  | keyword :: rest =>
      if includes (toLowerCase content) keyword then false
      else isContentAppropriate_loop rest content
  end.

Definition isContentAppropriate (content : string) : bool :=
  isContentAppropriate_loop inappropriateKeywords content.

Definition isDomainExcluded `{Platform} (link : string) : result bool :=
  url <- URL_new link ;;
  Ok (Array_includes excludedDomains (hostname url)).

Definition getFaviconUrl `{Platform} (link : string) : result string :=
  url <- URL_new link ;;
  Ok ("https://www.google.com/s2/favicons?domain=" ++ hostname url).

(** The callback of [items.filter]; [&&] evaluates left to right and stops
    at the first false operand. *)
Definition filter_cb `{Platform} (item : RawItem.t) : result bool :=
  let title := or_lit (RawItem.name item) "" in
  let snippet := or_lit (RawItem.snippet item) "" in
  let link := or_lit (or_ (RawItem.url item) (RawItem.contentUrl item)) "" in
  if isContentAppropriate title then
    if isContentAppropriate snippet then
      excluded <- isDomainExcluded link ;;
      Ok (negb excluded)
    else Ok false
  else Ok false.

(** The callback of [.map]. *)
Definition map_cb `{Platform} (item : RawItem.t) : result SearchResult.t :=
  favicon <- getFaviconUrl (ToString (or_ (RawItem.url item) (RawItem.contentUrl item))) ;;
  Ok {| SearchResult.name := RawItem.name item;
        SearchResult.url := or_ (RawItem.url item) (RawItem.contentUrl item);
        SearchResult.snippet := RawItem.snippet item;
        SearchResult.displayUrl := or_ (RawItem.displayUrl item) (RawItem.contentUrl item);
        SearchResult.faviconUrl := favicon;
        SearchResult.contentUrl := RawItem.contentUrl item;
        SearchResult.thumbnailUrl := RawItem.thumbnailUrl item |}.

Definition filterResults `{Platform} (items : list RawItem.t) : result (list SearchResult.t) :=
  kept <- Array_filter filter_cb items ;;
  Array_map map_cb kept.

(** ** Session state: the [useState] cells of the component *)

Inductive SearchType : Type := web | images.

Module Session.
Record t : Type := {
  query : string;
  results : list SearchResult.t;
  tab : SearchType;
  currentPage : Z;
  totalResults : Z;
  loading : bool;
  error : option string;
  hasSearched : bool
}.

(** The initial values given to [useState]. *)
Definition init : t :=
  {| query := ""; results := []; tab := web; currentPage := 1;
     totalResults := 0; loading := false; error := None;
     hasSearched := false |}.
End Session.

(** The request [axios.get(url, { params, headers })]. *)
Record Request : Type := {
  req_url : string;
  req_q : string;
  req_count : Z;
  req_offset : Z;
  req_subscription_key : string
}.

(** What the component does to the outside: calls of the state setters,
    the outbound request, and the console log of the [catch] block. *)
Inductive Effect : Type :=
| setQuery (q : string)
| setResults (rs : list SearchResult.t)
| setTab (t : SearchType)
| setCurrentPage (n : Z)
| setTotalResults (n : Z)
| setLoading (b : bool)
| setError (e : option string)
| setHasSearched (b : bool)
| axios_get (r : Request)
| console_error.

Definition apply_effect (s : Session.t) (e : Effect) : Session.t :=
  let '(Session.Build_t q rs t p n l err h) := s in
  match e with
  | setQuery q' => Session.Build_t q' rs t p n l err h
  | setResults rs' => Session.Build_t q rs' t p n l err h
  | setTab t' => Session.Build_t q rs t' p n l err h
  | setCurrentPage p' => Session.Build_t q rs t p' n l err h
  | setTotalResults n' => Session.Build_t q rs t p n' l err h
  | setLoading l' => Session.Build_t q rs t p n l' err h
  | setError err' => Session.Build_t q rs t p n l err' h
  | setHasSearched h' => Session.Build_t q rs t p n l err h'
  | axios_get _ => s
  | console_error => s
  end.

(** The session after a handler has performed [es]. *)
Definition run (s : Session.t) (es : list Effect) : Session.t :=
  fold_left apply_effect es s.

(** The requests among the effects of a handler. *)
Fixpoint requests (es : list Effect) : list Request :=
  match es with
  | [] => []
  | axios_get r :: rest => r :: requests rest
  | _ :: rest => requests rest
  end.

(** ** The API response *)

Record WebPages : Type := {
  wp_value : option (list RawItem.t);
  wp_totalEstimatedMatches : option Z
}.

(** [response.data]. *)
Record ResponseData : Type := {
  value : option (list RawItem.t);
  totalEstimatedMatches : option Z;
  webPages : option WebPages
}.

(** How the awaited [axios.get] promise settles. *)
Inductive Outcome : Type :=
| rejected
| resolved (data : ResponseData).

(** [a || b || 0] on numbers that may be absent; [0] is falsy. *)
Definition num_or (a : option Z) (rest : Z) : Z :=
  match a with
  | Some z => if z =? 0 then rest else z
  | None => rest
  end.

(** [Math.ceil(a / b)] on integers, [b] positive. *)
Definition Math_ceil_div (a b : Z) : Z := - ((- a) / b).

(** ** The dispatch cycle *)

Definition search_endpoint (searchType : SearchType) : string :=
  match searchType with
  | images => "https://api.bing.microsoft.com/v7.0/images/search"
  | web => "https://api.bing.microsoft.com/v7.0/search"
  end.

Definition search_offset (page : Z) : Z := (page - 1) * resultsPerPage.

(** [handleSearch] up to its [await]: lines 68-83.  [query] is read from
    the render the handler was created in. *)
Definition handleSearch_start `{Platform} (s : Session.t)
    (searchType : SearchType) (page : Z) : list Effect :=
  [ setLoading true;
    setError None;
    axios_get {| req_url := search_endpoint searchType;
                 req_q := Session.query s;
                 req_count := resultsPerPage;
                 req_offset := search_offset page;
                 req_subscription_key := VITE_BING_API_KEY |} ].

(** [searchType === 'images' ? response.data.value
    : response.data.webPages.value]; reading [.value] of an absent
    [webPages] throws. *)
Definition response_items (searchType : SearchType) (data : ResponseData)
    : result (option (list RawItem.t)) :=
  match searchType with
  | images => Ok (value data)
  | web =>
      match webPages data with
      | Some wp => Ok (wp_value wp)
      | None => Throw (TypeError "Cannot read properties of undefined")
      end
  end.

(** [response.data.totalEstimatedMatches
    || response.data.webPages?.totalEstimatedMatches || 0] *)
Definition response_total (data : ResponseData) : Z :=
  num_or (totalEstimatedMatches data)
    (num_or (match webPages data with
             | Some wp => wp_totalEstimatedMatches wp
             | None => None
             end) 0).

(** The [try] body after the [await]: lines 85-91.  Calling [.filter] on
    absent items throws; the setters run only once [filterResults] has
    returned. *)
Definition handleSearch_try `{Platform} (searchType : SearchType) (page : Z)
    (data : ResponseData) : result (list Effect) :=
  items <- response_items searchType data ;;
  let total := response_total data in
  filtered <- match items with
              | Some arr => filterResults arr
              | None => Throw (TypeError "Cannot read properties of undefined")
              end ;;
  Ok [ setResults filtered;
       setTotalResults total;
       setCurrentPage page;
       setHasSearched true ].

Definition fetch_error_message : string :=
  "An error occurred while fetching search results.".

(** The [catch] block. *)
Definition handleSearch_catch : list Effect :=
  [ console_error; setError (Some fetch_error_message) ].

(** [handleSearch] from the [await] on: [try] body or [catch] block, then
    [finally]. *)
Definition handleSearch_settle `{Platform} (searchType : SearchType) (page : Z)
    (o : Outcome) : list Effect :=
  match o with
  | rejected => handleSearch_catch
  | resolved data =>
      match handleSearch_try searchType page data with
      | Ok es => es
      | Throw _ => handleSearch_catch
      end
  end ++ [ setLoading false ].

(** One whole dispatch cycle. *)
Definition handleSearch `{Platform} (s : Session.t) (searchType : SearchType)
    (page : Z) (o : Outcome) : list Effect :=
  handleSearch_start s searchType page ++ handleSearch_settle searchType page o.

(** The dispatch fails: the request rejects, or the [try] body throws. *)
Definition dispatch_fails `{Platform} (searchType : SearchType) (page : Z)
    (o : Outcome) : bool :=
  match o with
  | rejected => true
  | resolved data =>
      match handleSearch_try searchType page data with
      | Ok _ => false
      | Throw _ => true
      end
  end.

(** ** UI actions: the synchronous part, up to the request *)

Definition handleTabChange `{Platform} (s : Session.t) (newTab : SearchType) : list Effect :=
  [ setTab newTab; setResults [] ] ++ handleSearch_start s newTab 1.

Definition handlePageChange `{Platform} (s : Session.t) (newPage : Z) : list Effect :=
  if (0 <? newPage) &&
     (newPage <=? Math_ceil_div (Session.totalResults s) resultsPerPage)
  then handleSearch_start s (Session.tab s) newPage
  else [].

(** ** Vocabulary of the filter rules *)

(** The three values the filter callback computes from an item. *)
Definition item_title (item : RawItem.t) : string :=
  or_lit (RawItem.name item) "".

Definition item_snippet (item : RawItem.t) : string :=
  or_lit (RawItem.snippet item) "".

Definition item_link (item : RawItem.t) : string :=
  or_lit (or_ (RawItem.url item) (RawItem.contentUrl item)) "".

(** Both keyword tests of the filter callback. *)
Definition passes_keywords (item : RawItem.t) : bool :=
  isContentAppropriate (item_title item) &&
  isContentAppropriate (item_snippet item).

(** The callback returned [true] on [x]: the element is kept. *)
Definition returns_true {A} (cb : A -> result bool) (x : A) : bool :=
  match cb x with
  | Ok b => b
  | Throw _ => false
  end.

(** [k] occurs in [s]: substring containment. *)
Definition occurs_in (k s : string) : Prop :=
  exists pre post, s = pre ++ k ++ post.

(** [content] contains a blocklisted keyword, whatever the case of either. *)
Definition has_keyword (content : string) : Prop :=
  exists k, In k inappropriateKeywords /\
            occurs_in (toLowerCase k) (toLowerCase content).

(** [l1] is [l2] with some elements removed, the others in their order. *)
Inductive subsequence {A} : list A -> list A -> Prop :=
| sub_nil : subsequence [] []
| sub_skip x l1 l2 : subsequence l1 l2 -> subsequence l1 (x :: l2)
| sub_keep x l1 l2 : subsequence l1 l2 -> subsequence (x :: l1) (x :: l2).

(** ** A concrete platform for the examples

    [URL_parse_model] follows the browser's parser on the two kinds of link
    the examples use, written without surrounding spaces or control
    characters: a link that does not begin with a scheme (a letter, then
    letters, digits, [+], [-] or [.], then [:]) is invalid, there being no
    base URL; a link [http(s)://host[:port]...] whose host is made of
    letters, digits, hyphens and dots, is no number and no punycode label,
    and whose port is at most 65535, parses, and its hostname is the host
    in lower case.  On every other link the model answers [None] and
    stands for nothing: the theorems below hold for every [Platform]. *)

Definition is_alpha (c : ascii) : bool :=
  let n := nat_of_ascii (lower_ascii c) in (Nat.leb 97 n && Nat.leb n 122)%bool.

Definition is_digit (c : ascii) : bool :=
  let n := nat_of_ascii c in (Nat.leb 48 n && Nat.leb n 57)%bool.

Definition one_of (chars : string) (c : ascii) : bool :=
  existsb (Ascii.eqb c) (list_ascii_of_string chars).

Fixpoint scan_scheme (s : string) : option (string * string) :=
  match s with
  | EmptyString => None
  | String c r =>
      if Ascii.eqb c ":" then Some (EmptyString, r)
      else if is_alpha c || is_digit c || one_of "+-." c then
        match scan_scheme r with
        | Some (scheme, rest) => Some (String (lower_ascii c) scheme, rest)
        | None => None
        end
      else None
  end.

Definition split_scheme (s : string) : option (string * string) :=
  match s with
  | String c _ => if is_alpha c then scan_scheme s else None
  | EmptyString => None
  end.

Fixpoint skip_slashes (s : string) : string :=
  match s with
  | String c r => if one_of "/\" c then skip_slashes r else s
  | EmptyString => EmptyString
  end.

Fixpoint authority (s : string) : string :=
  match s with
  | String c r => if one_of "/\?#" c then EmptyString else String c (authority r)
  | EmptyString => EmptyString
  end.

Fixpoint split_port (s : string) : string * string :=
  match s with
  | String c r =>
      if Ascii.eqb c ":" then (EmptyString, r)
      else let '(host, port) := split_port r in (String c host, port)
  | EmptyString => (EmptyString, EmptyString)
  end.

Fixpoint last_label (s label : string) : string :=
  match s with
  | String c r =>
      if Ascii.eqb c "." then last_label r (match r with EmptyString => label | _ => EmptyString end)
      else last_label r (label ++ String c EmptyString)
  | EmptyString => label
  end.

Definition string_forall (p : ascii -> bool) (s : string) : bool :=
  forallb p (list_ascii_of_string s).

Definition host_ok (host : string) : bool :=
  string_forall (fun c => is_alpha c || is_digit c || one_of "-." c) host &&
  match last_label host EmptyString with
  | String c _ => is_alpha c
  | EmptyString => false
  end &&
  negb (includes (toLowerCase host) "xn--").

(** The value of a string of decimal digits. *)
Definition port_number (port : string) : N :=
  fold_left (fun acc c => (acc * 10 + (N_of_ascii c - 48))%N)
            (list_ascii_of_string port) 0%N.

Definition port_ok (port : string) : bool :=
  string_forall is_digit port && (port_number port <=? 65535)%N.

Definition URL_parse_model (link : string) : option URL :=
  match split_scheme link with
  | None => None
  | Some (scheme, rest) =>
      if String.eqb scheme "http" || String.eqb scheme "https" then
        let '(host, port) := split_port (authority (skip_slashes rest)) in
        if host_ok host && port_ok port
        then Some {| hostname := toLowerCase host |}
        else None
      else None
  end.

#[export] Instance browser : Platform :=
  {| URL_parse := URL_parse_model;
     URL_parse_empty := eq_refl;
     VITE_BING_API_KEY := "subscription-key" |}.

(** Raw items as the two endpoints return them. *)
Definition web_item (name url snippet : string) : RawItem.t :=
  {| RawItem.name := str name; RawItem.url := str url;
     RawItem.snippet := str snippet; RawItem.displayUrl := str url;
     RawItem.contentUrl := undefined; RawItem.thumbnailUrl := undefined |}.

Definition image_item (name contentUrl thumbnailUrl : string) : RawItem.t :=
  {| RawItem.name := str name; RawItem.url := undefined;
     RawItem.snippet := undefined; RawItem.displayUrl := undefined;
     RawItem.contentUrl := str contentUrl; RawItem.thumbnailUrl := str thumbnailUrl |}.

(** An item without any link property. *)
Definition linkless_item (name : string) : RawItem.t :=
  {| RawItem.name := str name; RawItem.url := undefined;
     RawItem.snippet := undefined; RawItem.displayUrl := undefined;
     RawItem.contentUrl := undefined; RawItem.thumbnailUrl := undefined |}.

(** A session showing a page of 45 estimated matches. *)
Definition session_45 : Session.t :=
  {| Session.query := "rocq"; Session.results := []; Session.tab := web;
     Session.currentPage := 3; Session.totalResults := 45;
     Session.loading := false; Session.error := None;
     Session.hasSearched := true |}.

(** A web response carrying two pages of matches, and its first page. *)
Definition page1_items : list RawItem.t :=
  [ web_item "Rocq" "https://rocq-prover.org/" "A proof assistant";
    web_item "Docs" "https://example.com/docs" "Filtered by domain" ].

Definition page1_data : ResponseData :=
  {| value := None;
     totalEstimatedMatches := None;
     webPages := Some {| wp_value := Some page1_items;
                         wp_totalEstimatedMatches := Some 45 |} |}.

(** A web item without a [snippet] property. *)
Definition web_item_without_snippet : RawItem.t :=
  {| RawItem.name := str "Rocq"; RawItem.url := str "https://rocq-prover.org/";
     RawItem.snippet := undefined; RawItem.displayUrl := str "rocq-prover.org";
     RawItem.contentUrl := undefined; RawItem.thumbnailUrl := undefined |}.

(** Responses of the two endpoints with one item each, neither item
    having a [snippet] property. *)
Definition web_data_without_snippet : ResponseData :=
  {| value := None;
     totalEstimatedMatches := None;
     webPages := Some {| wp_value := Some [web_item_without_snippet];
                         wp_totalEstimatedMatches := Some 1 |} |}.

Definition images_data : ResponseData :=
  {| value := Some [image_item "Sunset" "https://x.com/a.jpg" "https://x.com/t.jpg"];
     totalEstimatedMatches := Some 1;
     webPages := None |}.

(** ** The rendered controls: lines 116-129 and 186-203

    What the JSX wires to the handlers, and the [disabled] attribute of
    each button. *)

(** [onChange={(e) => setQuery(e.target.value)}] *)
Definition input_onChange (v : string) : list Effect := [ setQuery v ].

(** [onClick={() => handleSearch(tab)}]: [page] takes its default, 1. *)
Definition search_onClick `{Platform} (s : Session.t) : list Effect :=
  handleSearch_start s (Session.tab s) 1.

Definition search_disabled (s : Session.t) : bool := Session.loading s.

(** [onClick={() => handlePageChange(currentPage - 1)}] *)
Definition previous_onClick `{Platform} (s : Session.t) : list Effect :=
  handlePageChange s (Session.currentPage s - 1).

Definition previous_disabled (s : Session.t) : bool :=
  Session.currentPage s =? 1.

(** [onClick={() => handlePageChange(currentPage + 1)}] *)
Definition next_onClick `{Platform} (s : Session.t) : list Effect :=
  handlePageChange s (Session.currentPage s + 1).

Definition next_disabled (s : Session.t) : bool :=
  Session.currentPage s =? Math_ceil_div (Session.totalResults s) resultsPerPage.

(** ** The event loop

    The part of [handleSearch] after its [await] runs when the request
    settles, and other handlers may run in between.  A configuration is
    the session, the dispatch cycles whose request is in flight, each
    with the arguments [(searchType, page)] its continuation closes over,
    and the requests issued so far. *)

Definition Pending : Type := (SearchType * Z)%type.

Record Config : Type := {
  session : Session.t;
  in_flight : list Pending;
  issued : list Request
}.

Definition init_config : Config :=
  {| session := Session.init; in_flight := []; issued := [] |}.

Inductive Event : Type :=
| input (v : string)
| click_search
| click_tab (newTab : SearchType)
| click_previous
| click_next
| settles (i : nat) (o : Outcome).

(** The [handleSearch] call of [handlePageChange], if its guard lets it
    through. *)
Definition handlePageChange_call (s : Session.t) (newPage : Z) : list Pending :=
  if (0 <? newPage) &&
     (newPage <=? Math_ceil_div (Session.totalResults s) resultsPerPage)
  then [ (Session.tab s, newPage) ]
  else [].

(** The effects a user event performs at once, and the dispatch cycles it
    starts.  The handlers are run whatever the [disabled] attributes say. *)
Definition on_event `{Platform} (s : Session.t) (e : Event) : list Effect * list Pending :=
  match e with
  | input v => (input_onChange v, [])
  | click_search => (search_onClick s, [ (Session.tab s, 1) ])
  | click_tab newTab => (handleTabChange s newTab, [ (newTab, 1) ])
  | click_previous =>
      (previous_onClick s, handlePageChange_call s (Session.currentPage s - 1))
  | click_next =>
      (next_onClick s, handlePageChange_call s (Session.currentPage s + 1))
  | settles _ _ => ([], [])
  end.

(** [l] without its [i]-th element. *)
Fixpoint remove_nth {A} (i : nat) (l : list A) : list A :=
  match i, l with
  | _, [] => []
  | O, _ :: rest => rest
  | S i', x :: rest => x :: remove_nth i' rest
  end.

(** One event.  [settles i o] is possible only for a request in flight. *)
Definition step `{Platform} (c : Config) (e : Event) : option Config :=
  match e with
  | settles i o =>
      match nth_error (in_flight c) i with
      | Some (searchType, page) =>
          Some {| session := run (session c) (handleSearch_settle searchType page o);
                  in_flight := remove_nth i (in_flight c);
                  issued := issued c |}
      | None => None
      end
  | _ =>
      let '(effects, started) := on_event (session c) e in
      Some {| session := run (session c) effects;
              in_flight := in_flight c ++ started;
              issued := issued c ++ requests effects |}
  end.

Fixpoint exec `{Platform} (c : Config) (events : list Event) : option Config :=
  match events with
  | [] => Some c
  | e :: rest =>
      match step c e with
      | Some c' => exec c' rest
      | None => None
      end
  end.

(** A result the filter lets through: no keyword in its title or snippet,
    a link that parses, a hostname off the domain blocklist, and the
    favicon of that hostname. *)
Definition filtered_result `{Platform} (r : SearchResult.t) : Prop :=
  isContentAppropriate (or_lit (SearchResult.name r) "") = true /\
  isContentAppropriate (or_lit (SearchResult.snippet r) "") = true /\
  exists link u,
    SearchResult.url r = str link /\ link <> "" /\
    URL_parse link = Some u /\
    ~ In (hostname u) excludedDomains /\
    SearchResult.faviconUrl r =
      "https://www.google.com/s2/favicons?domain=" ++ hostname u.

(** A request the component may send: a page of 20 starting at a page
    boundary. *)
Definition page_request `{Platform} (r : Request) : Prop :=
  req_count r = 20 /\ 0 <= req_offset r /\ (20 | req_offset r) /\
  req_subscription_key r = VITE_BING_API_KEY /\
  (req_url r = search_endpoint web \/ req_url r = search_endpoint images).

(** What every configuration of the event loop satisfies. *)
Definition consistent `{Platform} (c : Config) : Prop :=
  1 <= Session.currentPage (session c) /\
  Forall (fun cycle : Pending => 1 <= snd cycle) (in_flight c) /\
  Forall page_request (issued c) /\
  Forall filtered_result (Session.results (session c)) /\
  (Session.hasSearched (session c) = false ->
     Session.results (session c) = [] /\
     Session.totalResults (session c) = 0 /\
     Session.currentPage (session c) = 1) /\
  (in_flight c = [] -> Session.loading (session c) = false) /\
  (length (in_flight c) <= length (issued c))%nat.

Definition is_input (e : Event) : bool :=
  match e with input _ => true | _ => false end.

Definition is_click_tab (e : Event) : bool :=
  match e with click_tab _ => true | _ => false end.

(** A session left on page 5 of a query that now has 10 estimated
    matches. *)
Definition session_stale : Session.t :=
  {| Session.query := "rocq"; Session.results := []; Session.tab := web;
     Session.currentPage := 5; Session.totalResults := 10;
     Session.loading := false; Session.error := None;
     Session.hasSearched := true |}.

(** An images response without an estimated total. *)
Definition images_data_without_total : ResponseData :=
  {| value := Some [image_item "Sunset" "https://x.com/a.jpg" "https://x.com/t.jpg"];
     totalEstimatedMatches := None;
     webPages := None |}.

(** A search that succeeds, a second search, a switch to the images tab
    before the second response is in, then both responses, the one for
    images first. *)
Definition overlapping_events : list Event :=
  [ input "rocq"; click_search; settles 0 (resolved page1_data);
    click_search; click_tab images;
    settles 1 (resolved images_data); settles 0 (resolved page1_data) ].

(** A search that succeeds, then a click on each tab in quick succession. *)
Definition two_tabs_events : list Event :=
  [ input "rocq"; click_search; settles 0 (resolved page1_data);
    click_tab images; click_tab web ].

(** The configuration the events lead to from the initial one. *)
Definition after `{Platform} (events : list Event) : Config :=
  match exec init_config events with
  | Some c => c
  | None => init_config
  end.

(** Two searches that fail: the first request is rejected, the second gets
    a response without web pages. *)
Definition failing_events : list Event :=
  [ input "rocq"; click_search; settles 0 rejected;
    click_search; settles 0 (resolved images_data) ].

(** * Properties *)

(** ** Strings *)

Lemma startsWith_spec (k s : string) :
  startsWith s k = true <-> exists post, s = k ++ post.
Proof.
  revert s; induction k as [|a k IH]; intros s; simpl.
  - split; [intros _; now exists s | reflexivity].
  - destruct s as [|b s].
    + split; [discriminate | intros [post E]; discriminate].
    + rewrite andb_true_iff, Ascii.eqb_eq, IH. split.
      * intros [-> [post ->]]. now exists post.
      * intros [post E]. injection E as -> ->. split; [reflexivity | now exists post].
Qed.

Lemma includes_spec (k s : string) :
  includes s k = true <-> occurs_in k s.
Proof.
  unfold occurs_in. induction s as [|c s IH].
  - cbn [includes]. rewrite orb_false_r, startsWith_spec. split.
    + intros [post E]. now exists "", post.
    + intros [pre [post E]]. destruct pre; [now exists post | discriminate].
  - cbn [includes]. rewrite orb_true_iff, startsWith_spec, IH. split.
    + intros [[post E] | [pre [post E]]].
      * now exists "", post.
      * exists (String c pre), post. simpl. now rewrite E.
    + intros [pre [post E]]. destruct pre as [|c' pre].
      * left. now exists post.
      * right. simpl in E. injection E as _ E. now exists pre, post.
Qed.

(** The keywords of the blocklist are written in lower case. *)
Lemma inappropriateKeywords_lower (k : string) :
  In k inappropriateKeywords -> toLowerCase k = k.
Proof.
  unfold inappropriateKeywords; simpl.
  intros [<- | [<- | [<- | []]]]; reflexivity.
Qed.

Lemma Array_includes_spec (arr : list string) (x : string) :
  Array_includes arr x = true <-> In x arr.
Proof.
  unfold Array_includes. rewrite existsb_exists. split.
  - intros [y [Hy E]]. apply String.eqb_eq in E. now subst.
  - intros Hx. exists x. split; [assumption | apply String.eqb_refl].
Qed.

Lemma Array_includes_false (arr : list string) (x : string) :
  Array_includes arr x = false <-> ~ In x arr.
Proof.
  rewrite <- Array_includes_spec. destruct (Array_includes arr x); split; congruence.
Qed.

(** ** The keyword loop *)

Lemma isContentAppropriate_loop_false (keywords : list string) (content : string) :
  isContentAppropriate_loop keywords content = false <->
  exists k, In k keywords /\ occurs_in k (toLowerCase content).
Proof.
  induction keywords as [|k ks IH]; simpl.
  - split; [discriminate | intros [k [[] _]]].
  - destruct (includes (toLowerCase content) k) eqn:E.
    + split; [intros _ | reflexivity].
      exists k. split; [now left | now apply includes_spec].
    + rewrite IH. split.
      * intros [k' [Hin Hocc]]. exists k'. split; [now right | assumption].
      * intros [k' [[-> | Hin] Hocc]].
        -- apply includes_spec in Hocc. congruence.
        -- now exists k'.
Qed.

Lemma isContentAppropriate_false (content : string) :
  isContentAppropriate content = false <-> has_keyword content.
Proof.
  unfold isContentAppropriate, has_keyword.
  rewrite isContentAppropriate_loop_false. split.
  - intros [k [Hin Hocc]]. exists k. split; [assumption|].
    now rewrite (inappropriateKeywords_lower k Hin).
  - intros [k [Hin Hocc]]. exists k. split; [assumption|].
    now rewrite (inappropriateKeywords_lower k Hin) in Hocc.
Qed.



(** ** Arrays and callbacks that may throw *)

Lemma Array_filter_Ok {A} (cb : A -> result bool) (arr kept : list A) :
  Array_filter cb arr = Ok kept ->
  kept = filter (returns_true cb) arr /\
  (forall x, In x arr -> exists b, cb x = Ok b).
Proof.
  revert kept; induction arr as [|x rest IH]; simpl; intros kept E.
  - injection E as <-. split; [reflexivity | intros x []].
  - unfold returns_true at 1. destruct (cb x) as [b|e] eqn:Ex; simpl in E; [|discriminate].
    destruct (Array_filter cb rest) as [kept'|e] eqn:Er; simpl in E; [|discriminate].
    destruct (IH kept' eq_refl) as [-> Hall]. injection E as <-. split.
    + now destruct b.
    + intros y [<- | Hy]; [now exists b | now apply Hall].
Qed.

Lemma Array_filter_Throw {A} (cb : A -> result bool) (arr : list A) (e : exn) :
  Array_filter cb arr = Throw e -> exists x, In x arr /\ cb x = Throw e.
Proof.
  induction arr as [|x rest IH]; simpl; [discriminate|].
  destruct (cb x) as [b|e'] eqn:Ex; simpl.
  - destruct (Array_filter cb rest) as [kept|e'] eqn:Er; simpl; [discriminate|].
    intros E; injection E as ->. destruct (IH eq_refl) as [y [Hy Ey]].
    exists y. split; [now right | assumption].
  - intros E; injection E as ->. exists x. split; [now left | assumption].
Qed.

(** One throwing element is enough for the whole call to throw. *)
Lemma Array_filter_throws {A} (cb : A -> result bool) (arr : list A) (x : A) (e : exn) :
  In x arr -> cb x = Throw e -> exists e', Array_filter cb arr = Throw e'.
Proof.
  intros Hx Ex. destruct (Array_filter cb arr) as [kept|e'] eqn:E.
  - destruct (Array_filter_Ok cb arr kept E) as [_ Hall].
    destruct (Hall x Hx) as [b Eb]. congruence.
  - now exists e'.
Qed.

Lemma Array_map_Ok {A B} (cb : A -> result B) (arr : list A) (out : list B) :
  Array_map cb arr = Ok out -> Forall2 (fun x y => cb x = Ok y) arr out.
Proof.
  revert out; induction arr as [|x rest IH]; simpl; intros out E.
  - injection E as <-. constructor.
  - destruct (cb x) as [y|e] eqn:Ex; simpl in E; [|discriminate].
    destruct (Array_map cb rest) as [ys|e] eqn:Er; simpl in E; [|discriminate].
    injection E as <-. constructor; [assumption | now apply IH].
Qed.

Lemma Array_map_total {A B} (cb : A -> result B) (arr : list A) :
  (forall x, In x arr -> exists y, cb x = Ok y) ->
  exists out, Array_map cb arr = Ok out.
Proof.
  induction arr as [|x rest IH]; simpl; intros Hall; [now exists []|].
  destruct (Hall x (or_introl eq_refl)) as [y ->]; simpl.
  destruct IH as [ys ->]; [intros z Hz; apply Hall; now right|].
  now exists (y :: ys).
Qed.

Lemma Forall2_In_r {A B} (R : A -> B -> Prop) (l1 : list A) (l2 : list B) (y : B) :
  Forall2 R l1 l2 -> In y l2 -> exists x, In x l1 /\ R x y.
Proof.
  induction 1 as [|x y' l1 l2 HR _ IH]; simpl; [intros []|].
  intros [<- | Hy].
  - exists x. split; [now left | assumption].
  - destruct (IH Hy) as [x' [Hx' HR']]. exists x'. split; [now right | assumption].
Qed.


(** ** The filter callbacks, for any platform *)

Section Filter.
Context `{Platform}.

Lemma URL_new_parsed (link : string) (u : URL) :
  URL_parse link = Some u -> URL_new link = Ok u.
Proof. unfold URL_new. now intros ->. Qed.

Lemma URL_new_invalid (link : string) :
  URL_parse link = None -> URL_new link = Throw (TypeError "Invalid URL").
Proof. unfold URL_new. now intros ->. Qed.

Lemma isDomainExcluded_parsed (link : string) (u : URL) :
  URL_parse link = Some u ->
  isDomainExcluded link = Ok (Array_includes excludedDomains (hostname u)).
Proof. intros E. unfold isDomainExcluded. now rewrite (URL_new_parsed _ _ E). Qed.

Lemma isDomainExcluded_invalid (link : string) :
  URL_parse link = None ->
  isDomainExcluded link = Throw (TypeError "Invalid URL").
Proof. intros E. unfold isDomainExcluded. now rewrite (URL_new_invalid _ E). Qed.

Lemma getFaviconUrl_parsed (link : string) (u : URL) :
  URL_parse link = Some u ->
  getFaviconUrl link = Ok ("https://www.google.com/s2/favicons?domain=" ++ hostname u).
Proof. intros E. unfold getFaviconUrl. now rewrite (URL_new_parsed _ _ E). Qed.

Lemma getFaviconUrl_invalid (link : string) :
  URL_parse link = None ->
  getFaviconUrl link = Throw (TypeError "Invalid URL").
Proof. intros E. unfold getFaviconUrl. now rewrite (URL_new_invalid _ E). Qed.

(** The callback in terms of the two rules. *)
Lemma filter_cb_unfold (item : RawItem.t) :
  filter_cb item =
  if passes_keywords item
  then excluded <- isDomainExcluded (item_link item) ;; Ok (negb excluded)
  else Ok false.
Proof.
  unfold filter_cb, passes_keywords, item_title, item_snippet, item_link.
  destruct (isContentAppropriate (or_lit (RawItem.name item) ""));
    destruct (isContentAppropriate (or_lit (RawItem.snippet item) "")); reflexivity.
Qed.

Lemma filter_cb_blocked (item : RawItem.t) :
  passes_keywords item = false -> filter_cb item = Ok false.
Proof. intros E. now rewrite filter_cb_unfold, E. Qed.


Lemma filter_cb_invalid (item : RawItem.t) :
  passes_keywords item = true ->
  URL_parse (item_link item) = None ->
  filter_cb item = Throw (TypeError "Invalid URL").
Proof.
  intros Ek Eu. now rewrite filter_cb_unfold, Ek, (isDomainExcluded_invalid _ Eu).
Qed.

(** The only exception of the callback is the parse error of the link. *)
Lemma filter_cb_Throw (item : RawItem.t) (e : exn) :
  filter_cb item = Throw e ->
  e = TypeError "Invalid URL" /\ passes_keywords item = true /\
  URL_parse (item_link item) = None.
Proof.
  rewrite filter_cb_unfold.
  destruct (passes_keywords item) eqn:Ek; [|discriminate].
  destruct (URL_parse (item_link item)) as [u|] eqn:Eu.
  - now rewrite (isDomainExcluded_parsed _ _ Eu).
  - rewrite (isDomainExcluded_invalid _ Eu). simpl. intros E. injection E as <-. auto.
Qed.

Lemma filter_cb_true (item : RawItem.t) :
  returns_true filter_cb item = true <->
  passes_keywords item = true /\ isDomainExcluded (item_link item) = Ok false.
Proof.
  unfold returns_true. rewrite filter_cb_unfold.
  destruct (passes_keywords item); [|split; [discriminate | intros [? _]; discriminate]].
  destruct (isDomainExcluded (item_link item)) as [[]|e]; simpl;
    split; try discriminate; auto; intros [_ E]; discriminate.
Qed.

(** A link that parses is not empty, so it is the value of
    [item.url || item.contentUrl] itself. *)
Lemma resolved_link (item : RawItem.t) (u : URL) :
  URL_parse (item_link item) = Some u ->
  or_ (RawItem.url item) (RawItem.contentUrl item) = str (item_link item) /\
  item_link item <> "".
Proof.
  intros Eu.
  assert (Hne : item_link item <> "").
  { intros E. rewrite E, URL_parse_empty in Eu. discriminate. }
  split; [|assumption]. revert Hne. unfold item_link, or_.
  destruct (RawItem.url item) as [|[|c r]]; simpl;
    destruct (RawItem.contentUrl item) as [|[|c' r']]; simpl; congruence.
Qed.

(** On an item whose link parses the map callback returns. *)
Lemma map_cb_parsed (item : RawItem.t) (u : URL) :
  URL_parse (item_link item) = Some u ->
  map_cb item =
  Ok {| SearchResult.name := RawItem.name item;
        SearchResult.url := str (item_link item);
        SearchResult.snippet := RawItem.snippet item;
        SearchResult.displayUrl := or_ (RawItem.displayUrl item) (RawItem.contentUrl item);
        SearchResult.faviconUrl :=
          "https://www.google.com/s2/favicons?domain=" ++ hostname u;
        SearchResult.contentUrl := RawItem.contentUrl item;
        SearchResult.thumbnailUrl := RawItem.thumbnailUrl item |}.
Proof.
  intros Eu. destruct (resolved_link item u Eu) as [E _].
  unfold map_cb. rewrite E. simpl ToString.
  now rewrite (getFaviconUrl_parsed _ _ Eu).
Qed.

(** What passed the filter has a link that parses. *)
Lemma kept_parsed (item : RawItem.t) :
  returns_true filter_cb item = true ->
  exists u, URL_parse (item_link item) = Some u.
Proof.
  rewrite filter_cb_true. intros [_ E].
  destruct (URL_parse (item_link item)) as [u|] eqn:Eu; [now exists u|].
  rewrite (isDomainExcluded_invalid _ Eu) in E. discriminate.
Qed.

(** The map phase never throws after the filter phase has returned. *)
Lemma map_phase_returns (items kept : list RawItem.t) :
  Array_filter filter_cb items = Ok kept ->
  exists out, Array_map map_cb kept = Ok out.
Proof.
  intros E. destruct (Array_filter_Ok _ _ _ E) as [-> _].
  apply Array_map_total. intros x Hx. apply filter_In in Hx as [_ Hx].
  destruct (kept_parsed x Hx) as [u Eu].
  rewrite (map_cb_parsed x u Eu). eauto.
Qed.

(** [filterResults] returns exactly when every item the domain rule
    looks at has a link that parses. *)
Lemma filterResults_Throw (items : list RawItem.t) (e : exn) :
  filterResults items = Throw e ->
  e = TypeError "Invalid URL" /\
  exists item, In item items /\ passes_keywords item = true /\
               URL_parse (item_link item) = None.
Proof.
  unfold filterResults. destruct (Array_filter filter_cb items) as [kept|e'] eqn:E; simpl.
  - destruct (map_phase_returns _ _ E) as [out ->]. discriminate.
  - intros E'; injection E' as ->.
    destruct (Array_filter_Throw _ _ _ E) as [item [Hin Ecb]].
    destruct (filter_cb_Throw _ _ Ecb) as [-> [Ek Eu]].
    split; [reflexivity | now exists item].
Qed.

Lemma filterResults_throws (items : list RawItem.t) (item : RawItem.t) :
  In item items -> passes_keywords item = true ->
  URL_parse (item_link item) = None ->
  filterResults items = Throw (TypeError "Invalid URL").
Proof.
  intros Hin Ek Eu.
  destruct (Array_filter_throws filter_cb items item _ Hin (filter_cb_invalid _ Ek Eu))
    as [e E].
  destruct (filterResults_Throw items e) as [-> _].
  - unfold filterResults. now rewrite E.
  - unfold filterResults. now rewrite E.
Qed.

Lemma filterResults_Ok (items : list RawItem.t) (out : list SearchResult.t) :
  filterResults items = Ok out ->
  Forall2 (fun item r => map_cb item = Ok r)
          (filter (returns_true filter_cb) items) out /\
  (forall item, In item items -> exists b, filter_cb item = Ok b).
Proof.
  unfold filterResults. destruct (Array_filter filter_cb items) as [kept|e'] eqn:E; simpl;
    [|discriminate].
  destruct (Array_filter_Ok _ _ _ E) as [-> Hall]. intros Em.
  split; [now apply Array_map_Ok | assumption].
Qed.

End Filter.

(** Every result of the output is the image of an item that passed both
    rules, and whose link parses. *)
Lemma filterResults_out `{Platform} (items : list RawItem.t) (out : list SearchResult.t)
    (r : SearchResult.t) :
  filterResults items = Ok out -> In r out ->
  exists item u,
    In item items /\ returns_true filter_cb item = true /\
    URL_parse (item_link item) = Some u /\ map_cb item = Ok r.
Proof.
  intros E Hr. destruct (filterResults_Ok items out E) as [HF _].
  destruct (Forall2_In_r _ _ _ r HF Hr) as [item [Hin Em]].
  apply filter_In in Hin as [Hin Hk].
  destruct (kept_parsed item Hk) as [u Eu].
  now exists item, u.
Qed.

(** ** The session *)

(** The session after a dispatch cycle that failed: only [loading] and
    [error] are written. *)
Lemma handleSearch_failed `{Platform} (s : Session.t) (searchType : SearchType)
    (page : Z) (o : Outcome) :
  dispatch_fails searchType page o = true ->
  run s (handleSearch s searchType page o) =
  {| Session.query := Session.query s;
     Session.results := Session.results s;
     Session.tab := Session.tab s;
     Session.currentPage := Session.currentPage s;
     Session.totalResults := Session.totalResults s;
     Session.loading := false;
     Session.error := Some fetch_error_message;
     Session.hasSearched := Session.hasSearched s |}.
Proof.
  unfold dispatch_fails, handleSearch, handleSearch_settle. destruct s.
  destruct o as [|data]; [reflexivity|].
  destruct (handleSearch_try searchType page data); [discriminate | reflexivity].
Qed.

(** The session after a dispatch cycle that succeeded. *)
Lemma handleSearch_succeeded `{Platform} (s : Session.t) (searchType : SearchType)
    (page : Z) (data : ResponseData) (items : list RawItem.t)
    (out : list SearchResult.t) :
  response_items searchType data = Ok (Some items) ->
  filterResults items = Ok out ->
  dispatch_fails searchType page (resolved data) = false /\
  run s (handleSearch s searchType page (resolved data)) =
  {| Session.query := Session.query s;
     Session.results := out;
     Session.tab := Session.tab s;
     Session.currentPage := page;
     Session.totalResults := response_total data;
     Session.loading := false;
     Session.error := None;
     Session.hasSearched := true |}.
Proof.
  intros Ei Ef.
  unfold dispatch_fails, handleSearch, handleSearch_settle, handleSearch_try.
  rewrite Ei; simpl. rewrite Ef; simpl. destruct s. split; reflexivity.
Qed.

(** A dispatch cycle that does not fail is one whose [try] body ran to its
    end on some items. *)
Lemma dispatch_succeeds_inv `{Platform} (searchType : SearchType) (page : Z) (o : Outcome) :
  dispatch_fails searchType page o = false ->
  exists data items out,
    o = resolved data /\ response_items searchType data = Ok (Some items) /\
    filterResults items = Ok out.
Proof.
  unfold dispatch_fails, handleSearch_try. destruct o as [|data]; [discriminate|].
  destruct (response_items searchType data) as [[items|]|e] eqn:Ei; simpl; try discriminate.
  destruct (filterResults items) as [out|e] eqn:Ef; simpl; [|discriminate].
  intros _. now exists data, items, out.
Qed.

Lemma filter_throw_dispatch_fails `{Platform} (searchType : SearchType) (page : Z)
    (data : ResponseData) (items : list RawItem.t) (e : exn) :
  response_items searchType data = Ok (Some items) ->
  filterResults items = Throw e ->
  dispatch_fails searchType page (resolved data) = true.
Proof.
  intros Ei Ef. unfold dispatch_fails, handleSearch_try.
  rewrite Ei; simpl. now rewrite Ef.
Qed.

(** ** Malformed and missing links *)

(** C1, as stated, fails: one result with an unparsable link makes
    [filterResults] throw, and the well-formed result next to it is not
    returned either. *)
Lemma C1_counterexample :
  let good := web_item "Rocq" "https://rocq-prover.org/" "A proof assistant" in
  let bad := web_item "Weather today" "not a url" "Forecast" in
  @URL_parse browser (item_link bad) = None /\
  @filterResults browser [good; bad] = Throw (TypeError "Invalid URL") /\
  ~ (exists out, @filterResults browser [good; bad] = Ok out).
Proof.
  cbv zeta. split; [reflexivity|]. split; [reflexivity|].
  intros [out E]. vm_compute in E. discriminate.
Qed.

(** C1 (amended): for every input sequence containing a result whose link
    is malformed, [filterResults] throws the parse error, and returns no
    output, as soon as that result passes the keyword rule; the enclosing
    dispatch cycle catches it, reports the generic error message and leaves
    the results as they were.  [filterResults] returns only when the
    malformed-link result fails the keyword rule (its link is then never
    parsed), and every result of the output comes from an item whose link
    parses. *)
Theorem C1_malformed_link_throws `{Platform} (items : list RawItem.t) (bad : RawItem.t) :
  In bad items ->
  URL_parse (item_link bad) = None ->
  (passes_keywords bad = true ->
     filterResults items = Throw (TypeError "Invalid URL") /\
     forall s searchType page data,
       response_items searchType data = Ok (Some items) ->
       let s' := run s (handleSearch s searchType page (resolved data)) in
       Session.results s' = Session.results s /\
       Session.error s' = Some fetch_error_message) /\
  (passes_keywords bad = false -> filter_cb bad = Ok false) /\
  (forall out, filterResults items = Ok out ->
     passes_keywords bad = false /\
     forall r, In r out ->
       exists item u, In item items /\ URL_parse (item_link item) = Some u /\
                      map_cb item = Ok r).
Proof.
  intros Hin Eu. split; [|split].
  - intros Ek.
    assert (Et : filterResults items = Throw (TypeError "Invalid URL"))
      by exact (filterResults_throws items bad Hin Ek Eu).
    split; [assumption|]. intros s searchType page data Ei s'. subst s'.
    rewrite (handleSearch_failed s searchType page (resolved data)
               (filter_throw_dispatch_fails _ page _ _ _ Ei Et)).
    split; reflexivity.
  - apply filter_cb_blocked.
  - intros out Eo. split.
    + destruct (passes_keywords bad) eqn:Ek; [|reflexivity].
      rewrite (filterResults_throws items bad Hin Ek Eu) in Eo. discriminate.
    + intros r Hr. destruct (filterResults_out items out r Eo Hr) as [item [u [Hi [_ [Ep Em]]]]].
      now exists item, u.
Qed.

Lemma C1_malformed_link_throws_witness :
  let good := web_item "Rocq" "https://rocq-prover.org/" "A proof assistant" in
  let bad := web_item "Weather today" "not a url" "Forecast" in
  passes_keywords bad = true /\
  @filterResults browser [good; bad] = Throw (TypeError "Invalid URL").
Proof.
  cbv zeta. split; [reflexivity|].
  apply (@C1_malformed_link_throws browser
           [web_item "Rocq" "https://rocq-prover.org/" "A proof assistant";
            web_item "Weather today" "not a url" "Forecast"]
           (web_item "Weather today" "not a url" "Forecast")).
  - simpl. right. left. reflexivity.
  - reflexivity.
  - reflexivity.
Defined.

(** C2, as stated, fails: an item with neither [url] nor [contentUrl] is
    not dropped silently; the empty link it resolves to does not parse and
    [filterResults] throws. *)
Lemma C2_counterexample :
  let good := image_item "Sunset" "https://x.com/a.jpg" "https://x.com/t.jpg" in
  let bare := linkless_item "Untitled" in
  RawItem.url bare = undefined /\ RawItem.contentUrl bare = undefined /\
  @filterResults browser [good; bare] = Throw (TypeError "Invalid URL") /\
  ~ (exists out, @filterResults browser [good; bare] = Ok out).
Proof.
  cbv zeta. repeat split.
  intros [out E]. vm_compute in E. discriminate.
Qed.

(** C2 (amended): a raw item whose [url] and [contentUrl] are both absent
    or empty never reaches the output: it is dropped silently when its
    title or snippet fails the keyword rule, and otherwise [filterResults]
    throws the parse error of the empty link instead of returning, which
    the dispatch cycle ([handleSearch]) catches: it reports the generic
    error message and leaves the results as they were.  Consequently
    every [SearchResult] that survives filtering has a non-empty [url]. *)
Theorem C2_missing_link `{Platform} (items : list RawItem.t) :
  (forall item, In item items ->
     truthy (RawItem.url item) = false ->
     truthy (RawItem.contentUrl item) = false ->
     (passes_keywords item = false -> filter_cb item = Ok false) /\
     (passes_keywords item = true ->
        filterResults items = Throw (TypeError "Invalid URL") /\
        forall s searchType page data,
          response_items searchType data = Ok (Some items) ->
          let s' := run s (handleSearch s searchType page (resolved data)) in
          Session.error s' = Some fetch_error_message /\
          Session.results s' = Session.results s /\
          Session.loading s' = false) /\
     (forall out, filterResults items = Ok out ->
        forall r, In r out -> map_cb item <> Ok r)) /\
  (forall out, filterResults items = Ok out ->
     forall r, In r out ->
       exists link, SearchResult.url r = str link /\ link <> "").
Proof.
  split.
  - intros item Hin Eu Ec.
    assert (El : item_link item = "").
    { unfold item_link, or_. rewrite Eu.
      destruct (RawItem.contentUrl item) as [|[|c r]]; simpl in *; congruence. }
    assert (Ep : URL_parse (item_link item) = None)
      by (rewrite El; apply URL_parse_empty).
    split; [apply filter_cb_blocked|]. split.
    + intros Ek.
      assert (Et : filterResults items = Throw (TypeError "Invalid URL"))
        by exact (filterResults_throws items item Hin Ek Ep).
      split; [assumption|]. intros s searchType page data Ei s'. subst s'.
      rewrite (handleSearch_failed s searchType page (resolved data)
                 (filter_throw_dispatch_fails _ page _ _ _ Ei Et)).
      repeat split.
    + intros out Eo r Hr Em.
      unfold map_cb in Em.
      assert (Eg : getFaviconUrl
                     (ToString (or_ (RawItem.url item) (RawItem.contentUrl item)))
                   = Throw (TypeError "Invalid URL")).
      { destruct (filterResults_out items out r Eo Hr) as [item' [u [_ [_ [Ep' Em']]]]].
        destruct (getFaviconUrl
                    (ToString (or_ (RawItem.url item) (RawItem.contentUrl item))))
          as [fav|e] eqn:Eg; [|discriminate].
        simpl in Em. injection Em as <-.
        rewrite (map_cb_parsed item' u Ep') in Em'. injection Em' as E1 E2 E3 E4 E5 E6 E7.
        unfold or_ in E2. rewrite Eu in E2.
        destruct (resolved_link item' u Ep') as [_ Hne].
        destruct (RawItem.contentUrl item) as [|[|c r]]; simpl in *; congruence. }
      rewrite Eg in Em. discriminate.
  - intros out Eo r Hr.
    destruct (filterResults_out items out r Eo Hr) as [item [u [_ [_ [Ep Em]]]]].
    rewrite (map_cb_parsed item u Ep) in Em. injection Em as <-.
    exists (item_link item). split; [reflexivity|].
    now destruct (resolved_link item u Ep).
Qed.

Lemma C2_missing_link_witness :
  let items := [ image_item "Sunset" "https://x.com/a.jpg" "https://x.com/t.jpg";
                 linkless_item "Untitled" ] in
  let data := {| value := Some items; totalEstimatedMatches := Some 2;
                 webPages := None |} in
  let s' := run session_45 (@handleSearch browser session_45 images 1 (resolved data)) in
  @filterResults browser items = Throw (TypeError "Invalid URL") /\
  Session.error s' = Some fetch_error_message /\
  Session.results s' = Session.results session_45 /\
  (forall out, @filterResults browser (firstn 1 items) = Ok out ->
     forall r, In r out -> exists link, SearchResult.url r = str link /\ link <> "").
Proof.
  cbv zeta.
  destruct (proj1 (@C2_missing_link browser
                     [ image_item "Sunset" "https://x.com/a.jpg" "https://x.com/t.jpg";
                       linkless_item "Untitled" ])
              (linkless_item "Untitled")
              (or_intror (or_introl eq_refl)) eq_refl eq_refl) as [_ [W _]].
  destruct (W eq_refl) as [W1 W2].
  destruct (W2 session_45 images 1
              {| value := Some [ image_item "Sunset" "https://x.com/a.jpg"
                                   "https://x.com/t.jpg";
                                 linkless_item "Untitled" ];
                 totalEstimatedMatches := Some 2; webPages := None |}
              eq_refl) as [W3 [W4 _]].
  split; [exact W1|]. split; [exact W3|]. split; [exact W4|].
  apply (proj2 (@C2_missing_link browser
                  (firstn 1 [ image_item "Sunset" "https://x.com/a.jpg" "https://x.com/t.jpg";
                              linkless_item "Untitled" ]))).
Defined.

(** C3, as stated, fails in its second half: on a link that is no
    well-formed absolute URL [getFaviconUrl] throws. *)
Lemma C3_counterexample :
  @URL_parse browser "/images/logo.png" = None /\
  @getFaviconUrl browser "/images/logo.png" = Throw (TypeError "Invalid URL") /\
  ~ (exists favicon, @getFaviconUrl browser "/images/logo.png" = Ok favicon).
Proof.
  repeat split. intros [favicon E]. vm_compute in E. discriminate.
Qed.

(** C3 (amended): on a well-formed absolute URL [getFaviconUrl] returns
    the favicon-service URL parameterized by the link's hostname; on any
    other link it throws the parse error.  Inside [filterResults] it is
    applied only to links the domain rule has parsed before, so the map
    phase never throws, and every result carries the favicon URL of the
    hostname of its own [url]. *)
Theorem C3_favicon_derivation `{Platform} (link : string) :
  (forall u, URL_parse link = Some u ->
     getFaviconUrl link =
     Ok ("https://www.google.com/s2/favicons?domain=" ++ hostname u)) /\
  (URL_parse link = None ->
     getFaviconUrl link = Throw (TypeError "Invalid URL")) /\
  (forall items kept, Array_filter filter_cb items = Ok kept ->
     exists out, Array_map map_cb kept = Ok out /\ filterResults items = Ok out) /\
  (forall items out r, filterResults items = Ok out -> In r out ->
     exists l u, SearchResult.url r = str l /\ URL_parse l = Some u /\
       SearchResult.faviconUrl r =
       "https://www.google.com/s2/favicons?domain=" ++ hostname u).
Proof.
  split; [|split; [|split]].
  - intros u. apply getFaviconUrl_parsed.
  - apply getFaviconUrl_invalid.
  - intros items kept E. destruct (map_phase_returns items kept E) as [out Eo].
    exists out. split; [assumption|]. unfold filterResults. now rewrite E.
  - intros items out r Eo Hr.
    destruct (filterResults_out items out r Eo Hr) as [item [u [_ [_ [Ep Em]]]]].
    rewrite (map_cb_parsed item u Ep) in Em. injection Em as <-.
    now exists (item_link item), u.
Qed.

Lemma C3_favicon_derivation_witness :
  @getFaviconUrl browser "https://Example.com/news?id=1" =
    Ok "https://www.google.com/s2/favicons?domain=example.com" /\
  @getFaviconUrl browser "/images/logo.png" = Throw (TypeError "Invalid URL").
Proof.
  split.
  - apply (proj1 (@C3_favicon_derivation browser "https://Example.com/news?id=1")
             {| hostname := "example.com" |}).
    reflexivity.
  - apply (proj1 (proj2 (@C3_favicon_derivation browser "/images/logo.png"))).
    reflexivity.
Defined.

(** ** Pagination *)

(** [Math_ceil_div a b] is the least integer [c] with [a <= b * c]. *)
Lemma Math_ceil_div_spec (a b : Z) :
  0 < b ->
  b * (Math_ceil_div a b - 1) < a <= b * Math_ceil_div a b.
Proof.
  intros Hb. unfold Math_ceil_div.
  pose proof (Z.div_mod (- a) b ltac:(lia)) as Hdm.
  pose proof (Z.mod_pos_bound (- a) b Hb) as Hmod.
  nia.
Qed.

Lemma requests_app (es1 es2 : list Effect) :
  requests (es1 ++ es2)%list = (requests es1 ++ requests es2)%list.
Proof.
  induction es1 as [|e es1 IH]; simpl; [reflexivity|].
  destruct e; simpl; now rewrite ?IH.
Qed.

(** Nothing is requested after the [await]. *)
Lemma requests_settle `{Platform} (searchType : SearchType) (page : Z) (o : Outcome) :
  requests (handleSearch_settle searchType page o) = [].
Proof.
  unfold handleSearch_settle. rewrite requests_app. simpl. rewrite app_nil_r.
  destruct o as [|data]; [reflexivity|].
  unfold handleSearch_try.
  destruct (response_items searchType data) as [[items|]|e]; simpl; try reflexivity.
  destruct (filterResults items); reflexivity.
Qed.

(** C8: for every page >= 1 the request of a dispatch cycle carries
    offset [(page - 1) * 20] and count 20, and it is the only request of
    the cycle; page 1 gives offset 0 and page 3 gives offset 40. *)
Theorem C8_request_offset `{Platform} (s : Session.t) (searchType : SearchType)
    (page : Z) (o : Outcome) :
  1 <= page ->
  (exists r, requests (handleSearch s searchType page o) = [r] /\
             req_offset r = (page - 1) * 20 /\ req_count r = 20) /\
  resultsPerPage = 20 /\ search_offset 1 = 0 /\ search_offset 3 = 40.
Proof.
  intros _. split; [|repeat split].
  unfold handleSearch. rewrite requests_app, requests_settle. simpl.
  eexists. split; [reflexivity|]. split; reflexivity.
Qed.

Lemma C8_request_offset_witness :
  exists r, requests (@handleSearch browser Session.init images 3 rejected) = [r] /\
            req_offset r = 40 /\ req_count r = 20.
Proof.
  apply (proj1 (@C8_request_offset browser Session.init images 3 rejected ltac:(lia))).
Defined.

(** C4: with [pages = ceil(totalResults / 20)], a page-change request with
    [newPage < 1] or [newPage > pages] performs no effect at all: no
    request, no setter call, so the session (its error, [currentPage] and
    [results] included) is unchanged; a request with
    [1 <= newPage <= pages] starts a dispatch cycle of the current tab for
    that page. *)
Theorem C4_page_change_guard `{Platform} (s : Session.t) (newPage : Z) :
  let pages := Math_ceil_div (Session.totalResults s) resultsPerPage in
  (20 * (pages - 1) < Session.totalResults s <= 20 * pages) /\
  (newPage < 1 \/ pages < newPage ->
     handlePageChange s newPage = [] /\
     requests (handlePageChange s newPage) = [] /\
     run s (handlePageChange s newPage) = s) /\
  (1 <= newPage <= pages ->
     handlePageChange s newPage = handleSearch_start s (Session.tab s) newPage /\
     requests (handlePageChange s newPage) =
       [ {| req_url := search_endpoint (Session.tab s);
            req_q := Session.query s;
            req_count := 20;
            req_offset := (newPage - 1) * 20;
            req_subscription_key := VITE_BING_API_KEY |} ]).
Proof.
  intros pages. split; [|split].
  - apply (Math_ceil_div_spec (Session.totalResults s) 20). lia.
  - intros Hout. unfold handlePageChange. fold pages.
    destruct (0 <? newPage) eqn:E1; destruct (newPage <=? pages) eqn:E2; simpl;
      try (repeat split; reflexivity).
    apply Z.ltb_lt in E1. apply Z.leb_le in E2. lia.
  - intros [Hlo Hhi]. unfold handlePageChange. fold pages.
    replace (0 <? newPage) with true by (symmetry; apply Z.ltb_lt; lia).
    replace (newPage <=? pages) with true by (symmetry; apply Z.leb_le; lia).
    simpl. split; reflexivity.
Qed.

Lemma C4_page_change_guard_witness :
  @handlePageChange browser session_45 4 = [] /\
  @handlePageChange browser session_45 0 = [] /\
  run session_45 (@handlePageChange browser session_45 4) = session_45 /\
  requests (@handlePageChange browser session_45 2) =
    [ {| req_url := "https://api.bing.microsoft.com/v7.0/search";
         req_q := "rocq"; req_count := 20; req_offset := 20;
         req_subscription_key := "subscription-key" |} ].
Proof.
  pose proof (@C4_page_change_guard browser session_45 4) as H4.
  pose proof (@C4_page_change_guard browser session_45 0) as H0.
  pose proof (@C4_page_change_guard browser session_45 2) as H2.
  cbv zeta in H4, H0, H2.
  destruct H4 as [_ [H4 _]]. destruct H0 as [_ [H0 _]]. destruct H2 as [_ [_ H2]].
  split; [apply H4; right; vm_compute; reflexivity|].
  split; [apply H0; left; lia|].
  split; [apply H4; right; vm_compute; reflexivity|].
  apply H2. vm_compute. split; discriminate.
Defined.

(** ** The dispatch cycle and the error message *)

(** C7: when a fetch has succeeded and a later dispatch cycle fails (the
    request rejects, or the [try] body throws), the failed cycle sets the
    error message, ends with [loading] false, and leaves [results]
    untouched: they are still the items of the last page fetched with
    success.  The same holds from any session. *)
Theorem C7_failed_dispatch_keeps_results `{Platform}
    (s0 : Session.t) (type1 : SearchType) (page1 : Z) (data1 : ResponseData)
    (items1 : list RawItem.t) (out1 : list SearchResult.t)
    (type2 : SearchType) (page2 : Z) (o2 : Outcome) :
  response_items type1 data1 = Ok (Some items1) ->
  filterResults items1 = Ok out1 ->
  dispatch_fails type2 page2 o2 = true ->
  let s1 := run s0 (handleSearch s0 type1 page1 (resolved data1)) in
  let s2 := run s1 (handleSearch s1 type2 page2 o2) in
  (Session.results s1 = out1 /\ Session.error s1 = None) /\
  (Session.results s2 = out1 /\
   Session.error s2 = Some fetch_error_message /\
   Session.loading s2 = false /\
   Session.currentPage s2 = page1 /\
   Session.totalResults s2 = response_total data1) /\
  (forall s, Session.results (run s (handleSearch s type2 page2 o2)) = Session.results s).
Proof.
  intros Ei Ef Efail s1 s2. subst s2 s1.
  destruct (handleSearch_succeeded s0 type1 page1 data1 items1 out1 Ei Ef) as [_ E1].
  rewrite E1. rewrite (handleSearch_failed _ type2 page2 o2 Efail).
  split; [split; reflexivity|]. split; [repeat split|].
  intros s. now rewrite (handleSearch_failed s type2 page2 o2 Efail).
Qed.

Lemma C7_failed_dispatch_keeps_results_witness :
  let s1 := run Session.init (@handleSearch browser Session.init web 1 (resolved page1_data)) in
  let s2 := run s1 (@handleSearch browser s1 web 2 rejected) in
  Session.results s2 = Session.results s1 /\
  length (Session.results s2) = 1%nat /\
  Session.error s2 = Some fetch_error_message.
Proof.
  cbv zeta.
  pose proof (@C7_failed_dispatch_keeps_results browser Session.init web 1 page1_data
                page1_items
                [ {| SearchResult.name := str "Rocq";
                     SearchResult.url := str "https://rocq-prover.org/";
                     SearchResult.snippet := str "A proof assistant";
                     SearchResult.displayUrl := str "https://rocq-prover.org/";
                     SearchResult.faviconUrl :=
                       "https://www.google.com/s2/favicons?domain=rocq-prover.org";
                     SearchResult.contentUrl := undefined;
                     SearchResult.thumbnailUrl := undefined |} ]
                web 2 rejected eq_refl eq_refl eq_refl) as W.
  cbv zeta in W. destruct W as [[W1 _] [[W2 [W3 _]] _]].
  rewrite W2, W1, W3. repeat split.
Defined.




(** ** The two filter rules *)







(** ** Normalisation of the snippet *)

(** C9 (the code at the failing inputs): the object literal of
    [filterResults] copies [item.snippet] as it is, in both categories; a
    web item or an image item without a [snippet] property gets the
    snippet [undefined], not the empty string that the filter callback
    computes two lines above for its own use. *)
Theorem C9_snippet_copied_raw :
  (forall (P : Platform) items out r,
     filterResults items = Ok out -> In r out ->
     exists item, In item items /\ SearchResult.snippet r = RawItem.snippet item) /\
  item_snippet web_item_without_snippet = "" /\
  map SearchResult.snippet
      (Session.results
         (run Session.init
              (@handleSearch browser Session.init web 1
                 (resolved web_data_without_snippet)))) = [undefined] /\
  map SearchResult.snippet
      (Session.results
         (run Session.init
              (@handleSearch browser Session.init images 1
                 (resolved images_data)))) = [undefined] /\
  undefined <> str "".
Proof.
  split; [|repeat split; discriminate].
  intros P items out r Eo Hr.
  destruct (filterResults_out items out r Eo Hr) as [item [u [Hin [_ [Ep Em]]]]].
  rewrite (map_cb_parsed item u Ep) in Em. injection Em as <-.
  now exists item.
Qed.

(** * Further properties of the component *)

(** ** The keyword rule *)

Lemma toLowerCase_app (s t : string) :
  toLowerCase (s ++ t) = toLowerCase s ++ toLowerCase t.
Proof.
  induction s as [|c s IH]; simpl; [reflexivity | now rewrite IH].
Qed.

Lemma string_app_assoc (a b c : string) : (a ++ b) ++ c = a ++ (b ++ c).
Proof.
  induction a as [|x a IH]; simpl; [reflexivity | now rewrite IH].
Qed.

Lemma isContentAppropriate_loop_lower (keywords : list string) (a b : string) :
  toLowerCase a = toLowerCase b ->
  isContentAppropriate_loop keywords a = isContentAppropriate_loop keywords b.
Proof.
  intros E. induction keywords as [|k ks IH]; simpl; [reflexivity|].
  now rewrite E, IH.
Qed.

(** The verdict of [isContentAppropriate] depends on the content up to
    letter case only, and content that is blocked stays blocked inside
    any longer text; so text that is let through has no blocked part. *)
Theorem keyword_rule_closed :
  (forall a b, toLowerCase a = toLowerCase b ->
     isContentAppropriate a = isContentAppropriate b) /\
  (forall content pre post,
     isContentAppropriate content = false ->
     isContentAppropriate (pre ++ content ++ post) = false) /\
  (forall content pre post,
     isContentAppropriate (pre ++ content ++ post) = true ->
     isContentAppropriate content = true).
Proof.
  assert (Hsub : forall content pre post,
            isContentAppropriate content = false ->
            isContentAppropriate (pre ++ content ++ post) = false).
  { intros content pre post Hc.
    apply isContentAppropriate_false in Hc as [k [Hk [p1 [p2 E]]]].
    apply isContentAppropriate_false. exists k. split; [assumption|].
    exists (toLowerCase pre ++ p1), (p2 ++ toLowerCase post).
    rewrite !toLowerCase_app, E.
    now rewrite !string_app_assoc. }
  split; [|split].
  - intros a b E. now apply isContentAppropriate_loop_lower.
  - exact Hsub.
  - intros content pre post Hok.
    destruct (isContentAppropriate content) eqn:Ec; [reflexivity|].
    rewrite (Hsub content pre post Ec) in Hok. discriminate.
Qed.

Lemma keyword_rule_closed_witness :
  isContentAppropriate "Cheap KeyWord2 deals" = isContentAppropriate "cheap keyword2 deals" /\
  isContentAppropriate ("Top 10: " ++ "KEYWORD3" ++ " reviewed") = false.
Proof.
  split.
  - apply (proj1 keyword_rule_closed). reflexivity.
  - apply (proj1 (proj2 keyword_rule_closed)). reflexivity.
Defined.

(** ** [filterResults] as a whole *)

Lemma Array_filter_app {A} (cb : A -> result bool) (a b : list A) :
  Array_filter cb (a ++ b) =
  (ka <- Array_filter cb a ;; kb <- Array_filter cb b ;; Ok (ka ++ kb)%list).
Proof.
  induction a as [|x a IH]; simpl.
  - destruct (Array_filter cb b); reflexivity.
  - destruct (cb x) as [keep|e]; simpl; [|reflexivity].
    rewrite IH. destruct (Array_filter cb a) as [ka|e]; simpl; [|reflexivity].
    destruct (Array_filter cb b) as [kb|e]; simpl; [|reflexivity].
    now destruct keep.
Qed.

Lemma Array_map_app {A B} (cb : A -> result B) (a b : list A) :
  Array_map cb (a ++ b) =
  (ya <- Array_map cb a ;; yb <- Array_map cb b ;; Ok (ya ++ yb)%list).
Proof.
  induction a as [|x a IH]; simpl.
  - destruct (Array_map cb b); reflexivity.
  - destruct (cb x) as [y|e]; simpl; [|reflexivity].
    rewrite IH. destruct (Array_map cb a) as [ya|e]; simpl; [|reflexivity].
    destruct (Array_map cb b) as [yb|e]; reflexivity.
Qed.

(** [filterResults] treats every item on its own: the result on a
    concatenation is the concatenation of the results, and it returns on
    the whole exactly when it returns on both parts. *)
Theorem filterResults_concat `{Platform} (a b : list RawItem.t)
    (out : list SearchResult.t) :
  filterResults (a ++ b) = Ok out <->
  exists oa ob, filterResults a = Ok oa /\ filterResults b = Ok ob /\
                out = (oa ++ ob)%list.
Proof.
  unfold filterResults. rewrite Array_filter_app.
  destruct (Array_filter filter_cb a) as [ka|e] eqn:Ea; simpl.
  - destruct (map_phase_returns a ka Ea) as [oa Eoa].
    destruct (Array_filter filter_cb b) as [kb|e] eqn:Eb; simpl.
    + destruct (map_phase_returns b kb Eb) as [ob Eob].
      rewrite Array_map_app, Eoa, Eob. simpl. split.
      * intros E. injection E as <-. now exists oa, ob.
      * intros [oa' [ob' [E1 [E2 ->]]]]. congruence.
    + split; [discriminate | intros [oa' [ob' [_ [E _]]]]; discriminate].
  - split; [discriminate | intros [oa' [ob' [E _]]]; discriminate].
Qed.

(** [filterResults] returns exactly when every item that passes the
    keyword rule has a link that parses; otherwise it throws the
    [TypeError] of the URL constructor. *)
Theorem filterResults_returns_iff `{Platform} (items : list RawItem.t) :
  ((exists out, filterResults items = Ok out) <->
   (forall item, In item items -> passes_keywords item = true ->
                 URL_parse (item_link item) <> None)) /\
  (forall e, filterResults items = Throw e -> e = TypeError "Invalid URL").
Proof.
  split.
  - split.
    + intros [out Eo] item Hin Ek Eu.
      rewrite (filterResults_throws items item Hin Ek Eu) in Eo. discriminate.
    + intros Hall. destruct (filterResults items) as [out|e] eqn:E; [now exists out|].
      destruct (filterResults_Throw items e E) as [_ [item [Hin [Ek Eu]]]].
      now destruct (Hall item Hin Ek).
  - intros e E. now destruct (filterResults_Throw items e E).
Qed.

Lemma subsequence_map_filter {A B} (f : A -> B) (p : A -> bool) (l : list A) :
  subsequence (map f (filter p l)) (map f l).
Proof.
  induction l as [|x l IH]; simpl; [constructor|].
  destruct (p x); simpl; now constructor.
Qed.

Lemma map_cb_urls `{Platform} (kept : list RawItem.t) (out : list SearchResult.t) :
  Forall2 (fun item r => map_cb item = Ok r) kept out ->
  Forall (fun item => returns_true filter_cb item = true) kept ->
  map SearchResult.url out = map (fun item => str (item_link item)) kept.
Proof.
  induction 1 as [|item r kept out Em _ IH]; intros Hk; [reflexivity|].
  inversion Hk as [|? ? Hitem Hrest]; subst. simpl.
  destruct (kept_parsed item Hitem) as [u Eu].
  rewrite (map_cb_parsed item u Eu) in Em. injection Em as <-. simpl.
  now rewrite (IH Hrest).
Qed.

(** The output of [filterResults] is never longer than its input, and the
    links of the output are links of the input, in the order of the
    input. *)
Theorem filterResults_shrinks `{Platform} (items : list RawItem.t)
    (out : list SearchResult.t) :
  filterResults items = Ok out ->
  (length out <= length items)%nat /\
  subsequence (map SearchResult.url out) (map (fun item => str (item_link item)) items).
Proof.
  intros Eo. destruct (filterResults_Ok items out Eo) as [HF _].
  split.
  - rewrite <- (Forall2_length HF). apply filter_length_le.
  - rewrite (map_cb_urls _ _ HF).
    + apply subsequence_map_filter.
    + apply Forall_forall. intros x Hx. now apply filter_In in Hx.
Qed.

Lemma filterResults_shrinks_witness :
  exists out, @filterResults browser page1_items = Ok out /\ (length out <= 2)%nat.
Proof.
  eexists. split; [reflexivity|].
  apply (@filterResults_shrinks browser page1_items _ eq_refl).
Defined.

(** Every result of [filterResults] satisfies both rules: no blocklisted
    keyword in its title or snippet, a link that parses to a hostname off
    the domain blocklist, and the favicon URL of that hostname. *)
Theorem filterResults_filtered `{Platform} (items : list RawItem.t)
    (out : list SearchResult.t) :
  filterResults items = Ok out -> Forall filtered_result out.
Proof.
  intros Eo. apply Forall_forall. intros r Hr.
  destruct (filterResults_out items out r Eo Hr) as [item [u [_ [Hk [Ep Em]]]]].
  apply filter_cb_true in Hk as [Ek Ed].
  rewrite (isDomainExcluded_parsed _ u Ep) in Ed.
  assert (Hoff : ~ In (hostname u) excludedDomains)
    by (apply Array_includes_false; congruence).
  apply andb_true_iff in Ek as [Et Es].
  destruct (resolved_link item u Ep) as [_ Hne].
  rewrite (map_cb_parsed item u Ep) in Em. injection Em as <-.
  unfold filtered_result; simpl. split; [exact Et|]. split; [exact Es|].
  exists (item_link item), u. repeat split; assumption.
Qed.

Lemma filterResults_filtered_witness :
  exists out, @filterResults browser page1_items = Ok out /\
              Forall (@filtered_result browser) out.
Proof.
  eexists. split; [reflexivity|].
  apply (@filterResults_filtered browser page1_items _ eq_refl).
Defined.

(** The link fallbacks of the normaliser: the [url] of a result is the
    item's [url] when that is a non-empty string and its [contentUrl]
    (then non-empty) otherwise; [displayUrl] falls back to [contentUrl] in
    the same way, possibly to nothing; the other properties are copied. *)
Theorem normalizer_fallbacks `{Platform} (items : list RawItem.t)
    (out : list SearchResult.t) (r : SearchResult.t) :
  filterResults items = Ok out -> In r out ->
  exists item,
    In item items /\ map_cb item = Ok r /\
    SearchResult.name r = RawItem.name item /\
    SearchResult.contentUrl r = RawItem.contentUrl item /\
    SearchResult.thumbnailUrl r = RawItem.thumbnailUrl item /\
    (truthy (RawItem.url item) = true -> SearchResult.url r = RawItem.url item) /\
    (truthy (RawItem.url item) = false ->
       SearchResult.url r = RawItem.contentUrl item /\
       truthy (RawItem.contentUrl item) = true) /\
    (truthy (RawItem.displayUrl item) = true ->
       SearchResult.displayUrl r = RawItem.displayUrl item) /\
    (truthy (RawItem.displayUrl item) = false ->
       SearchResult.displayUrl r = RawItem.contentUrl item).
Proof.
  intros Eo Hr.
  destruct (filterResults_out items out r Eo Hr) as [item [u [Hin [_ [Ep Em]]]]].
  exists item. split; [assumption|]. split; [assumption|].
  destruct (resolved_link item u Ep) as [El Hne].
  rewrite (map_cb_parsed item u Ep) in Em. injection Em as <-. clear El Ep Hin.
  unfold item_link, or_ in *. destruct item as [n url sn display content thumb].
  simpl in *.
  destruct url as [|[|? ?]], content as [|[|? ?]], display as [|[|? ?]]; simpl in *;
    repeat split; intros; try reflexivity; try discriminate;
    exfalso; apply Hne; reflexivity.
Qed.

Lemma normalizer_fallbacks_witness :
  exists r item,
    @map_cb browser item = Ok r /\
    RawItem.url item = undefined /\
    SearchResult.url r = str "https://x.com/a.jpg".
Proof.
  destruct (@normalizer_fallbacks browser
              [image_item "Sunset" "https://x.com/a.jpg" "https://x.com/t.jpg"]
              _ _ eq_refl (or_introl eq_refl))
    as [item [Hin [Em [_ [_ [_ [_ [Hurl _]]]]]]]].
  destruct Hin as [<- | []].
  eexists. eexists. split; [exact Em|]. split; [reflexivity|].
  exact (proj1 (Hurl eq_refl)).
Defined.

(** ** The dispatch cycle, continued *)

(** The continuation of a cycle whose [try] body succeeds writes the
    results, the total, the page and the two flags, whatever the session
    is by then; it does not touch [tab], [query] or [error]. *)
Lemma settle_succeeded `{Platform} (s : Session.t) (searchType : SearchType)
    (page : Z) (data : ResponseData) (items : list RawItem.t)
    (out : list SearchResult.t) :
  response_items searchType data = Ok (Some items) ->
  filterResults items = Ok out ->
  run s (handleSearch_settle searchType page (resolved data)) =
  {| Session.query := Session.query s;
     Session.results := out;
     Session.tab := Session.tab s;
     Session.currentPage := page;
     Session.totalResults := response_total data;
     Session.loading := false;
     Session.error := Session.error s;
     Session.hasSearched := true |}.
Proof.
  intros Ei Ef. unfold handleSearch_settle, handleSearch_try.
  rewrite Ei; simpl. rewrite Ef; simpl. now destruct s.
Qed.

Lemma settle_failed `{Platform} (s : Session.t) (searchType : SearchType)
    (page : Z) (o : Outcome) :
  dispatch_fails searchType page o = true ->
  run s (handleSearch_settle searchType page o) =
  {| Session.query := Session.query s;
     Session.results := Session.results s;
     Session.tab := Session.tab s;
     Session.currentPage := Session.currentPage s;
     Session.totalResults := Session.totalResults s;
     Session.loading := false;
     Session.error := Some fetch_error_message;
     Session.hasSearched := Session.hasSearched s |}.
Proof.
  unfold dispatch_fails, handleSearch_settle. destruct s.
  destruct o as [|data]; [reflexivity|].
  destruct (handleSearch_try searchType page data); [discriminate | reflexivity].
Qed.



(** A response that lacks what the tab reads fails the cycle like a
    rejected request: [webPages] or its [value] on the web tab, [value] on
    the images tab.  The images tab never reads [webPages], and with its
    items present the cycle fails only if [filterResults] throws. *)
Theorem response_missing_keys `{Platform} (page : Z) (data : ResponseData) :
  (webPages data = None -> dispatch_fails web page (resolved data) = true) /\
  (forall wp, webPages data = Some wp -> wp_value wp = None ->
     dispatch_fails web page (resolved data) = true) /\
  (value data = None -> dispatch_fails images page (resolved data) = true) /\
  (forall items, value data = Some items ->
     (dispatch_fails images page (resolved data) = false <->
      exists out, filterResults items = Ok out)) /\
  (forall wp items, webPages data = Some wp -> wp_value wp = Some items ->
     (dispatch_fails web page (resolved data) = false <->
      exists out, filterResults items = Ok out)).
Proof.
  unfold dispatch_fails, handleSearch_try, response_items.
  split; [|split; [|split; [|split]]].
  - now intros ->.
  - intros wp -> E. simpl. now rewrite E.
  - intros E. simpl. now rewrite E.
  - intros items E. simpl. rewrite E.
    destruct (filterResults items) as [out|e]; simpl; split; try discriminate.
    + intros _. now exists out.
    + reflexivity.
    + intros [out E']. discriminate.
  - intros wp items -> E. simpl. rewrite E.
    destruct (filterResults items) as [out|e]; simpl; split; try discriminate.
    + intros _. now exists out.
    + reflexivity.
    + intros [out E']. discriminate.
Qed.

Lemma response_missing_keys_witness :
  @dispatch_fails browser web 1 (resolved images_data) = true.
Proof.
  apply (proj1 (@response_missing_keys browser 1 images_data)). reflexivity.
Defined.

(** A count of zero is treated like an absent count. *)
Lemma num_or_zero (a : option Z) (rest : Z) :
  a = None \/ a = Some 0 -> num_or a rest = rest.
Proof. intros [-> | ->]; reflexivity. Qed.

(** ** Pagination, continued *)

(** Whatever page is asked for, a request that [handlePageChange] sends
    is for the current tab and query, and its offset is a page boundary
    below the estimated total. *)
Theorem page_change_offset_in_range `{Platform} (s : Session.t) (newPage : Z) (r : Request) :
  In r (requests (handlePageChange s newPage)) ->
  req_offset r = (newPage - 1) * 20 /\
  0 <= req_offset r < Session.totalResults s /\
  req_count r = 20 /\
  req_url r = search_endpoint (Session.tab s) /\
  req_q r = Session.query s.
Proof.
  unfold handlePageChange.
  destruct (0 <? newPage) eqn:E1; [|intros []].
  destruct (newPage <=? Math_ceil_div (Session.totalResults s) resultsPerPage) eqn:E2;
    [|intros []].
  apply Z.ltb_lt in E1. apply Z.leb_le in E2.
  pose proof (Math_ceil_div_spec (Session.totalResults s) 20 ltac:(lia)) as Hc.
  unfold resultsPerPage in E2.
  simpl. intros [<- | []]. simpl. unfold search_offset, resultsPerPage.
  repeat split; lia.
Qed.

Lemma page_change_offset_in_range_witness :
  exists r, In r (requests (@handlePageChange browser session_45 3)) /\
            req_offset r = 40 /\ 0 <= req_offset r < 45.
Proof.
  eexists. split; [left; reflexivity|].
  destruct (@page_change_offset_in_range browser session_45 3 _ (or_introl eq_refl))
    as [W1 [W2 _]].
  split; [exact W1 | exact W2].
Defined.

(** The guard of [handlePageChange] subsumes the [disabled] attributes of
    the two buttons: a disabled button would do nothing if clicked.  For
    a page number of at least 1, Next sends a request exactly below the
    last page, and Previous exactly from page 2 up to one page past the
    last; beyond that (the total being no negative number) both buttons
    are enabled and neither does anything. *)
Theorem pagination_buttons `{Platform} (s : Session.t) :
  let pages := Math_ceil_div (Session.totalResults s) resultsPerPage in
  (previous_disabled s = true -> previous_onClick s = []) /\
  (next_disabled s = true -> next_onClick s = []) /\
  (1 <= Session.currentPage s ->
     (next_onClick s <> [] <-> Session.currentPage s < pages) /\
     (previous_onClick s <> [] <-> 1 < Session.currentPage s <= pages + 1) /\
     (0 <= Session.totalResults s -> pages + 1 < Session.currentPage s ->
        previous_disabled s = false /\ next_disabled s = false /\
        previous_onClick s = [] /\ next_onClick s = [])).
Proof.
  intros pages.
  assert (Hg : forall newPage,
            handlePageChange s newPage <> [] <-> 1 <= newPage <= pages).
  { intros newPage. unfold handlePageChange. fold pages.
    destruct (0 <? newPage) eqn:E1; destruct (newPage <=? pages) eqn:E2; simpl;
      try apply Z.ltb_lt in E1; try apply Z.ltb_ge in E1;
      try apply Z.leb_le in E2; try apply Z.leb_gt in E2;
      split; try discriminate; try lia; intros; congruence. }
  assert (Hn : forall newPage,
            ~ (1 <= newPage <= pages) -> handlePageChange s newPage = []).
  { intros newPage Hno. destruct (handlePageChange s newPage) eqn:E; [reflexivity|].
    exfalso. apply Hno, Hg. rewrite E. discriminate. }
  unfold previous_disabled, next_disabled, previous_onClick, next_onClick. fold pages.
  split; [|split].
  - intros E. apply Z.eqb_eq in E. apply Hn. lia.
  - intros E. apply Z.eqb_eq in E. apply Hn. lia.
  - intros Hcp. split; [|split].
    + rewrite Hg. lia.
    + rewrite Hg. lia.
    + intros Htot Hbig.
      pose proof (Math_ceil_div_spec (Session.totalResults s) 20 ltac:(lia)) as Hc.
      fold resultsPerPage pages in Hc. unfold resultsPerPage in Hc.
      repeat split.
      * apply Z.eqb_neq. lia.
      * apply Z.eqb_neq. lia.
      * apply Hn. lia.
      * apply Hn. lia.
Qed.

Lemma pagination_buttons_witness :
  previous_disabled session_stale = false /\ next_disabled session_stale = false /\
  @previous_onClick browser session_stale = [] /\
  @next_onClick browser session_stale = [].
Proof.
  apply (proj2 (proj2 (proj2 (@pagination_buttons browser session_stale))
           ltac:(vm_compute; discriminate)));
    vm_compute; [discriminate | reflexivity].
Defined.

(** A response that carries no estimated total, or zero, in either place
    leaves the session with a total of 0, and then no page change sends
    a request, however many results the page shows; the Next button is
    enabled all the same. *)
Theorem no_total_no_paging `{Platform} (s : Session.t) (searchType : SearchType)
    (page : Z) (data : ResponseData) (items : list RawItem.t)
    (out : list SearchResult.t) :
  response_items searchType data = Ok (Some items) ->
  filterResults items = Ok out ->
  (totalEstimatedMatches data = None \/ totalEstimatedMatches data = Some 0) ->
  (forall wp, webPages data = Some wp ->
     wp_totalEstimatedMatches wp = None \/ wp_totalEstimatedMatches wp = Some 0) ->
  let s' := run s (handleSearch s searchType page (resolved data)) in
  Session.results s' = out /\
  Session.totalResults s' = 0 /\
  (forall newPage, handlePageChange s' newPage = []) /\
  (page <> 0 -> next_disabled s' = false).
Proof.
  intros Ei Ef Htop Hwp s'. subst s'.
  destruct (handleSearch_succeeded s searchType page data items out Ei Ef) as [_ E].
  rewrite E. clear E.
  assert (Et : response_total data = 0).
  { unfold response_total. rewrite (num_or_zero _ _ Htop).
    apply num_or_zero. destruct (webPages data) as [wp|]; [now apply Hwp | now left]. }
  rewrite Et. split; [reflexivity|]. split; [reflexivity|]. split.
  - intros newPage. unfold handlePageChange. simpl.
    destruct (0 <? newPage) eqn:E1; [|reflexivity].
    destruct (newPage <=? Math_ceil_div 0 resultsPerPage) eqn:E2; [|reflexivity].
    apply Z.ltb_lt in E1. apply Z.leb_le in E2.
    change (Math_ceil_div 0 resultsPerPage) with 0 in E2. lia.
  - intros Hp. unfold next_disabled. simpl. apply Z.eqb_neq.
    change (Math_ceil_div 0 resultsPerPage) with 0. exact Hp.
Qed.

Lemma no_total_no_paging_witness :
  let s' := run Session.init
              (@handleSearch browser Session.init images 1
                 (resolved images_data_without_total)) in
  length (Session.results s') = 1%nat /\
  Session.totalResults s' = 0 /\
  @next_onClick browser s' = [].
Proof.
  cbv zeta.
  destruct (@no_total_no_paging browser Session.init images 1 images_data_without_total
              _ _ eq_refl eq_refl (or_introl eq_refl)
              ltac:(intros wp E; discriminate E)) as [W1 [W2 [W3 _]]].
  split; [rewrite W1; reflexivity|]. split; [exact W2|]. apply W3.
Defined.

(** ** The event loop *)

Lemma run_handleSearch_start `{Platform} (s : Session.t) (searchType : SearchType) (page : Z) :
  run s (handleSearch_start s searchType page) =
  {| Session.query := Session.query s;
     Session.results := Session.results s;
     Session.tab := Session.tab s;
     Session.currentPage := Session.currentPage s;
     Session.totalResults := Session.totalResults s;
     Session.loading := true;
     Session.error := None;
     Session.hasSearched := Session.hasSearched s |}.
Proof. now destruct s. Qed.

Lemma page_request_start `{Platform} (s : Session.t) (searchType : SearchType) (page : Z) :
  1 <= page ->
  Forall page_request (requests (handleSearch_start s searchType page)).
Proof.
  intros Hp. simpl. constructor; [|constructor].
  unfold page_request, search_offset, resultsPerPage; simpl.
  split; [reflexivity|]. split; [lia|]. split; [now exists (page - 1)|].
  split; [reflexivity|]. destruct searchType; auto.
Qed.

Lemma handlePageChange_cases `{Platform} (s : Session.t) (newPage : Z) :
  (handlePageChange s newPage = [] /\ handlePageChange_call s newPage = []) \/
  (1 <= newPage /\
   handlePageChange s newPage = handleSearch_start s (Session.tab s) newPage /\
   handlePageChange_call s newPage = [ (Session.tab s, newPage) ]).
Proof.
  unfold handlePageChange, handlePageChange_call.
  destruct (0 <? newPage) eqn:E1; simpl; [|now left].
  destruct (newPage <=? Math_ceil_div (Session.totalResults s) resultsPerPage);
    [|now left].
  right. apply Z.ltb_lt in E1. split; [lia | split; reflexivity].
Qed.

(** What a user event does at once: it leaves the page, the total and
    [hasSearched] alone, keeps the results or empties them, and starts as
    many cycles as it sends requests, each for a page of at least 1. *)
Lemma on_event_frame `{Platform} (s : Session.t) (e : Event) :
  let s' := run s (fst (on_event s e)) in
  Session.currentPage s' = Session.currentPage s /\
  Session.totalResults s' = Session.totalResults s /\
  Session.hasSearched s' = Session.hasSearched s /\
  (Session.results s' = Session.results s \/ Session.results s' = []) /\
  Forall (fun cycle : Pending => 1 <= snd cycle) (snd (on_event s e)) /\
  Forall page_request (requests (fst (on_event s e))) /\
  length (snd (on_event s e)) = length (requests (fst (on_event s e))) /\
  (snd (on_event s e) = [] -> Session.loading s' = Session.loading s).
Proof.
  assert (Hpage : forall newPage,
            let s' := run s (handlePageChange s newPage) in
            Session.currentPage s' = Session.currentPage s /\
            Session.totalResults s' = Session.totalResults s /\
            Session.hasSearched s' = Session.hasSearched s /\
            (Session.results s' = Session.results s \/ Session.results s' = []) /\
            Forall (fun cycle : Pending => 1 <= snd cycle) (handlePageChange_call s newPage) /\
            Forall page_request (requests (handlePageChange s newPage)) /\
            length (handlePageChange_call s newPage) =
              length (requests (handlePageChange s newPage)) /\
            (handlePageChange_call s newPage = [] -> Session.loading s' = Session.loading s)).
  { intros newPage. cbv zeta.
    destruct (handlePageChange_cases s newPage) as [[-> ->] | [Hp [-> ->]]].
    - simpl. repeat split; auto.
    - rewrite run_handleSearch_start. simpl.
      repeat split; auto; try discriminate.
      constructor; [|constructor].
      pose proof (page_request_start s (Session.tab s) newPage Hp) as Hr.
      now inversion Hr. }
  destruct e as [v | | newTab | | | i o]; cbv zeta; simpl fst; simpl snd.
  - destruct s; simpl. repeat split; auto.
  - unfold search_onClick. rewrite run_handleSearch_start. simpl.
    repeat split; auto; try discriminate; try lia.
    + constructor; [simpl; lia | constructor].
    + apply (page_request_start s (Session.tab s) 1). lia.
  - split; [now destruct s|]. split; [now destruct s|]. split; [now destruct s|].
    split; [right; now destruct s|]. split; [constructor; [simpl; lia | constructor]|].
    split; [|split; [reflexivity | discriminate]].
    unfold handleTabChange. rewrite requests_app. simpl.
    apply (page_request_start s newTab 1). lia.
  - apply Hpage.
  - apply Hpage.
  - simpl. repeat split; auto.
Qed.

Lemma remove_nth_Forall {A} (P : A -> Prop) (i : nat) (l : list A) :
  Forall P l -> Forall P (remove_nth i l).
Proof.
  revert i; induction l as [|x l IH]; intros i Hl; [now destruct i|].
  inversion Hl; subst. destruct i; simpl; [assumption|].
  constructor; [assumption | now apply IH].
Qed.

Lemma remove_nth_length {A} (i : nat) (l : list A) (x : A) :
  nth_error l i = Some x -> S (length (remove_nth i l)) = length l.
Proof.
  revert i; induction l as [|y l IH]; intros i E; [now destruct i|].
  destruct i; simpl in *; [reflexivity|]. now rewrite (IH i E).
Qed.

Lemma init_consistent `{Platform} : consistent init_config.
Proof.
  unfold consistent, init_config; simpl.
  repeat split; auto; try lia.
Qed.

Lemma step_consistent `{Platform} (c c' : Config) (e : Event) :
  consistent c -> step c e = Some c' -> consistent c'.
Proof.
  intros [Hcp [Hfl [Hiss [Hres [Hfirst [Hidle Hlen]]]]]] Es.
  assert (Hui : (forall i o, e <> settles i o) ->
                c' = {| session := run (session c) (fst (on_event (session c) e));
                        in_flight := in_flight c ++ snd (on_event (session c) e);
                        issued := issued c ++ requests (fst (on_event (session c) e)) |} ->
                consistent c').
  { intros _ ->. unfold consistent; simpl.
    destruct (on_event_frame (session c) e) as [F1 [F2 [F3 [F4 [F5 [F6 [F7 F8]]]]]]].
    cbv zeta in *. rewrite F1, F2, F3.
    split; [assumption|]. split; [apply Forall_app; now split|].
    split; [apply Forall_app; now split|].
    split; [destruct F4 as [-> | ->]; [assumption | constructor]|].
    split.
    - intros Eh. destruct (Hfirst Eh) as [R1 [R2 R3]]. split; [|now split].
      destruct F4 as [-> | ->]; [assumption | reflexivity].
    - split.
      + intros Enil. apply app_eq_nil in Enil as [E1 E2].
        rewrite (F8 E2). now apply Hidle.
      + rewrite !length_app, F7. lia. }
  destruct e as [v | | newTab | | | i o];
    try (apply Hui; [discriminate | unfold step in Es; simpl in Es;
                     injection Es as <-; reflexivity]).
  unfold step in Es.
  destruct (nth_error (in_flight c) i) as [[searchType page]|] eqn:En; [|discriminate].
  injection Es as <-.
  assert (Hp : 1 <= page).
  { rewrite Forall_forall in Hfl. apply (Hfl (searchType, page)).
    now apply nth_error_In with i. }
  pose proof (remove_nth_length i (in_flight c) _ En) as Hl.
  unfold consistent; simpl.
  destruct (dispatch_fails searchType page o) eqn:Ed.
  - rewrite (settle_failed _ searchType page o Ed). simpl.
    split; [assumption|]. split; [now apply remove_nth_Forall|].
    split; [assumption|]. split; [assumption|]. split; [assumption|].
    split; [reflexivity | lia].
  - destruct (dispatch_succeeds_inv searchType page o Ed) as [data [items [out [-> [Ei Ef]]]]].
    rewrite (settle_succeeded _ searchType page data items out Ei Ef). simpl.
    split; [assumption|]. split; [now apply remove_nth_Forall|].
    split; [assumption|]. split; [exact (filterResults_filtered items out Ef)|].
    split; [discriminate|]. split; [reflexivity | lia].
Qed.

Lemma exec_consistent `{Platform} (events : list Event) (c c' : Config) :
  consistent c -> exec c events = Some c' -> consistent c'.
Proof.
  revert c; induction events as [|e events IH]; simpl; intros c Hc E.
  - now injection E as <-.
  - destruct (step c e) as [c1|] eqn:Es; [|discriminate].
    exact (IH c1 (step_consistent c c1 e Hc Es) E).
Qed.

(** Whatever the user does and however the requests settle, the page
    number of the session is at least 1, and so is the page of every
    cycle in flight. *)
Theorem pages_stay_positive `{Platform} (events : list Event) (c : Config) :
  exec init_config events = Some c ->
  1 <= Session.currentPage (session c) /\
  Forall (fun cycle : Pending => 1 <= snd cycle) (in_flight c).
Proof.
  intros E. destruct (exec_consistent events _ c init_consistent E) as [H1 [H2 _]].
  now split.
Qed.

Lemma pages_stay_positive_witness :
  exists c, @exec browser init_config overlapping_events = Some c /\
            1 <= Session.currentPage (session c).
Proof.
  eexists. split; [reflexivity|].
  apply (@pages_stay_positive browser overlapping_events _ eq_refl).
Defined.

(** Every request the component ever sends asks for 20 results from one
    of the two endpoints, with the subscription key, at an offset that is
    a non-negative multiple of 20; and no more cycles are in flight than
    requests were sent. *)
Theorem requests_well_formed `{Platform} (events : list Event) (c : Config) :
  exec init_config events = Some c ->
  Forall page_request (issued c) /\
  (length (in_flight c) <= length (issued c))%nat.
Proof.
  intros E.
  destruct (exec_consistent events _ c init_consistent E) as [_ [_ [H3 [_ [_ [_ H7]]]]]].
  now split.
Qed.

Lemma requests_well_formed_witness :
  exists c, @exec browser init_config overlapping_events = Some c /\
            Forall (@page_request browser) (issued c) /\ length (issued c) = 3%nat.
Proof.
  eexists. split; [reflexivity|]. split; [|reflexivity].
  apply (@requests_well_formed browser overlapping_events _ eq_refl).
Defined.

(** The session never holds a result that the filter would reject:
    whatever the events, every result in [results] is free of blocklisted
    keywords, has a link that parses to a hostname off the domain
    blocklist, and carries the favicon URL of that hostname. *)
Theorem session_results_filtered `{Platform} (events : list Event) (c : Config) :
  exec init_config events = Some c ->
  Forall filtered_result (Session.results (session c)).
Proof.
  intros E.
  now destruct (exec_consistent events _ c init_consistent E) as [_ [_ [_ [H4 _]]]].
Qed.

Lemma session_results_filtered_witness :
  exists c, @exec browser init_config overlapping_events = Some c /\
            Forall (@filtered_result browser) (Session.results (session c)) /\
            length (Session.results (session c)) = 1%nat.
Proof.
  eexists. split; [reflexivity|]. split; [|reflexivity].
  apply (@session_results_filtered browser overlapping_events _ eq_refl).
Defined.

(** Until a first cycle has succeeded ([hasSearched] false) the session
    shows nothing: no results, a total of 0, page 1; failed cycles and tab
    changes do not alter that. *)
Theorem nothing_before_first_success `{Platform} (events : list Event) (c : Config) :
  exec init_config events = Some c ->
  Session.hasSearched (session c) = false ->
  Session.results (session c) = [] /\
  Session.totalResults (session c) = 0 /\
  Session.currentPage (session c) = 1.
Proof.
  intros E.
  now destruct (exec_consistent events _ c init_consistent E) as [_ [_ [_ [_ [H5 _]]]]].
Qed.

Lemma nothing_before_first_success_witness :
  exists c, @exec browser init_config failing_events = Some c /\
            Session.results (session c) = [] /\
            Session.error (session c) = Some fetch_error_message.
Proof.
  eexists. split; [reflexivity|]. split; [|reflexivity].
  apply (@nothing_before_first_success browser failing_events _ eq_refl). reflexivity.
Defined.

(** When no request is in flight the session is not loading.  The
    converse fails: the settling of any one cycle turns [loading] off,
    also while other cycles are still in flight. *)
Theorem loading_flag `{Platform} :
  (forall events c, exec init_config events = Some c ->
     in_flight c = [] -> Session.loading (session c) = false) /\
  (forall c i o c', step c (settles i o) = Some c' ->
     Session.loading (session c') = false /\
     S (length (in_flight c')) = length (in_flight c)).
Proof.
  split.
  - intros events c E.
    now destruct (exec_consistent events _ c init_consistent E)
      as [_ [_ [_ [_ [_ [H6 _]]]]]].
  - intros c i o c' Es. unfold step in Es.
    destruct (nth_error (in_flight c) i) as [[searchType page]|] eqn:En; [|discriminate].
    injection Es as <-. simpl. split; [|exact (remove_nth_length i _ _ En)].
    destruct (dispatch_fails searchType page o) eqn:Ed.
    + now rewrite (settle_failed _ searchType page o Ed).
    + destruct (dispatch_succeeds_inv searchType page o Ed) as [data [items [out [-> [Ei Ef]]]]].
      now rewrite (settle_succeeded _ searchType page data items out Ei Ef).
Qed.

Lemma loading_flag_witness :
  exists c, @exec browser init_config overlapping_events = Some c /\
            Session.loading (session c) = false.
Proof.
  eexists. split; [reflexivity|].
  apply (proj1 (@loading_flag browser) overlapping_events _ eq_refl). reflexivity.
Defined.

Lemma step_session `{Platform} (c c' : Config) (e : Event) :
  step c e = Some c' ->
  match e with
  | settles i o =>
      exists searchType page,
        nth_error (in_flight c) i = Some (searchType, page) /\
        session c' = run (session c) (handleSearch_settle searchType page o)
  | _ => session c' = run (session c) (fst (on_event (session c) e))
  end.
Proof.
  unfold step. destruct e as [v | | newTab | | | i o];
    try (intros E; injection E as <-; reflexivity).
  destruct (nth_error (in_flight c) i) as [[searchType page]|]; [|discriminate].
  intros E; injection E as <-. now exists searchType, page.
Qed.

Lemma step_frame `{Platform} (c c' : Config) (e : Event) :
  step c e = Some c' ->
  (Session.hasSearched (session c) = true -> Session.hasSearched (session c') = true) /\
  (is_input e = false -> Session.query (session c') = Session.query (session c)) /\
  (is_click_tab e = false -> Session.tab (session c') = Session.tab (session c)).
Proof.
  assert (Hpage : forall newPage,
            let s' := run (session c) (handlePageChange (session c) newPage) in
            Session.hasSearched s' = Session.hasSearched (session c) /\
            Session.query s' = Session.query (session c) /\
            Session.tab s' = Session.tab (session c)).
  { intros newPage. cbv zeta.
    destruct (handlePageChange_cases (session c) newPage) as [[-> _] | [_ [-> _]]].
    - now simpl.
    - now rewrite run_handleSearch_start. }
  intros Es. apply step_session in Es.
  destruct e as [v | | newTab | | | i o]; cbn [on_event fst] in Es.
  - rewrite Es. destruct (session c); simpl. repeat split; auto; discriminate.
  - rewrite Es. unfold search_onClick. rewrite run_handleSearch_start. simpl. auto.
  - rewrite Es. destruct (session c); simpl. repeat split; auto; discriminate.
  - rewrite Es. unfold previous_onClick.
    destruct (Hpage (Session.currentPage (session c) - 1)) as [-> [-> ->]]. auto.
  - rewrite Es. unfold next_onClick.
    destruct (Hpage (Session.currentPage (session c) + 1)) as [-> [-> ->]]. auto.
  - destruct Es as [searchType [page [_ ->]]].
    destruct (dispatch_fails searchType page o) eqn:Ed.
    + rewrite (settle_failed _ searchType page o Ed). simpl. auto.
    + destruct (dispatch_succeeds_inv searchType page o Ed) as [data [items [out [-> [Ei Ef]]]]].
      rewrite (settle_succeeded _ searchType page data items out Ei Ef). simpl. auto.
Qed.

(** Three things only their own event changes: [hasSearched] never goes
    back to false; the query changes only when the user types; the tab
    changes only on a click on a tab, never when a response arrives. *)
Theorem session_frames `{Platform} (events : list Event) (c c' : Config) :
  exec c events = Some c' ->
  (Session.hasSearched (session c) = true -> Session.hasSearched (session c') = true) /\
  (existsb is_input events = false ->
     Session.query (session c') = Session.query (session c)) /\
  (existsb is_click_tab events = false ->
     Session.tab (session c') = Session.tab (session c)).
Proof.
  revert c; induction events as [|e events IH]; simpl; intros c E.
  - injection E as <-. auto.
  - destruct (step c e) as [c1|] eqn:Es; [|discriminate].
    destruct (step_frame c c1 e Es) as [S1 [S2 S3]].
    destruct (IH c1 E) as [I1 [I2 I3]].
    split; [auto|]. split.
    + intros En. apply orb_false_iff in En as [En1 En2].
      now rewrite (I2 En2), (S2 En1).
    + intros En. apply orb_false_iff in En as [En1 En2].
      now rewrite (I3 En2), (S3 En1).
Qed.

Lemma session_frames_witness :
  exists c, @exec browser init_config (tl overlapping_events) = Some c /\
            Session.query (session c) = "".
Proof.
  eexists. split; [reflexivity|].
  apply (proj1 (proj2 (@session_frames browser (tl overlapping_events) init_config _ eq_refl))).
  reflexivity.
Defined.

(** The response that settles overwrites the results, the page and the
    total of the session, whichever cycles were started or have settled
    in between, and touches neither the tab nor the error: the session
    may show the results of a request that was not the last one sent,
    under a tab they were not fetched for. *)
Theorem settled_response_overwrites `{Platform} (c : Config) (i : nat)
    (searchType : SearchType) (page : Z) (data : ResponseData)
    (items : list RawItem.t) (out : list SearchResult.t) :
  nth_error (in_flight c) i = Some (searchType, page) ->
  response_items searchType data = Ok (Some items) ->
  filterResults items = Ok out ->
  exists c',
    step c (settles i (resolved data)) = Some c' /\
    Session.results (session c') = out /\
    Session.currentPage (session c') = page /\
    Session.totalResults (session c') = response_total data /\
    Session.tab (session c') = Session.tab (session c) /\
    Session.error (session c') = Session.error (session c) /\
    in_flight c' = remove_nth i (in_flight c).
Proof.
  intros En Ei Ef. unfold step. rewrite En. eexists. split; [reflexivity|]. simpl.
  rewrite (settle_succeeded _ searchType page data items out Ei Ef). simpl.
  repeat split.
Qed.

Lemma settled_response_overwrites_witness :
  exists c',
    @step browser (@after browser (removelast overlapping_events))
          (settles 0 (resolved page1_data)) = Some c' /\
    Session.tab (session c') = images /\
    map SearchResult.url (Session.results (session c')) =
      [ str "https://rocq-prover.org/" ].
Proof.
  destruct (@settled_response_overwrites browser
              (@after browser (removelast overlapping_events))
              0%nat web 1 page1_data page1_items _ eq_refl eq_refl eq_refl)
    as [c' [Es [W1 [_ [_ [W2 _]]]]]].
  exists c'. split; [exact Es|]. split; [rewrite W2 | rewrite W1]; reflexivity.
Defined.

(** A failure message outlives a success: when, of two cycles in flight,
    one fails and the other then succeeds, the session shows the results
    of the second together with the error message of the first. *)
Theorem error_outlives_success `{Platform} (c c1 : Config) (i j : nat)
    (typeA typeB : SearchType) (pageA pageB : Z) (o : Outcome)
    (data : ResponseData) (items : list RawItem.t) (out : list SearchResult.t) :
  nth_error (in_flight c) i = Some (typeA, pageA) ->
  dispatch_fails typeA pageA o = true ->
  step c (settles i o) = Some c1 ->
  nth_error (in_flight c1) j = Some (typeB, pageB) ->
  response_items typeB data = Ok (Some items) ->
  filterResults items = Ok out ->
  exists c2,
    step c1 (settles j (resolved data)) = Some c2 /\
    Session.results (session c2) = out /\
    Session.error (session c2) = Some fetch_error_message /\
    Session.loading (session c2) = false.
Proof.
  intros Ea Efail Es Eb Ei Ef.
  unfold step in Es. rewrite Ea in Es. injection Es as <-.
  unfold step. simpl in Eb |- *. rewrite Eb. eexists. split; [reflexivity|]. simpl.
  rewrite (settle_succeeded _ typeB pageB data items out Ei Ef). simpl.
  rewrite (settle_failed _ typeA pageA o Efail). simpl. repeat split.
Qed.

Lemma error_outlives_success_witness :
  exists c1 c2,
    @step browser (@after browser two_tabs_events) (settles 0 rejected) = Some c1 /\
    @step browser c1 (settles 0 (resolved page1_data)) = Some c2 /\
    length (Session.results (session c2)) = 1%nat /\
    Session.error (session c2) = Some fetch_error_message.
Proof.
  eexists. 
  destruct (@error_outlives_success browser (@after browser two_tabs_events) _
              0%nat 0%nat images web 1 1 rejected page1_data page1_items _
              eq_refl eq_refl eq_refl eq_refl eq_refl eq_refl)
    as [c2 [Es [W1 [W2 _]]]].
  exists c2. split; [reflexivity|]. split; [exact Es|].
  split; [rewrite W1; reflexivity | exact W2].
Defined.
